(** * Weather dashboard: synthetic series generator and summary statistics

    Shallow embedding of [src/components/WeatherDashboard.tsx]:
    the body of [fetchWeatherData] that builds [mockData] (lines 46-105) and
    the three derived statistics [latest], [average], [trend] (lines 157-159),
    then the helpers that present them: [getParameterInfo], [formatValue],
    [getTemperatureColor] (lines 133-155), the guarded reads of the
    statistics cards (lines 305-350) and the text of the toast (line 115).

    Numbers.  JavaScript numbers are modelled by the real numbers: years and
    array indices are integers ([Z]), the [value] field and every arithmetic
    operation on it are taken in [R], [Math.sin] is the real sine and
    [Math.max] the real maximum.  Rounding of IEEE doubles is not part of
    that model; where it decides a property, for the sum and the quotient
    of [average], the line is modelled again on binary64 doubles with the
    rounding written out ([Binary64]).

    Randomness.  [Math.random] reads and advances a hidden generator state;
    it is modelled by an arbitrary step function on an arbitrary state type,
    threaded through the array construction by a small state monad, in the
    order in which [Array.from] calls its callback. *)

From Stdlib Require Import ZArith List String Bool Lia.
From Stdlib Require Import Reals Lra.
From Stdlib Require Import Floats.
Import ListNotations.

Open Scope string_scope.
Open Scope Z_scope.

(** ** The data model *)

(** [interface WeatherData] (lines 10-15). *)
Record WeatherData : Type := mkWeatherData {
  year : Z;
  value : R;
  region : string;
  parameter : string
}.

(** Entries of the [regions] table (lines 17-23). *)
Record RegionInfo : Type := mkRegionInfo {
  region_value : string;
  region_label : string;
  region_code : string
}.

Definition regions : list RegionInfo :=
  [ mkRegionInfo "UK" "United Kingdom" "GB";
    mkRegionInfo "England" "England" "EN";
    mkRegionInfo "Wales" "Wales" "WA";
    mkRegionInfo "Scotland" "Scotland" "SC";
    mkRegionInfo "NorthernIreland" "Northern Ireland" "NI" ].

(** Entries of the [parameters] table (lines 25-31). *)
Record ParameterInfo : Type := mkParameterInfo {
  parameter_value : string;
  parameter_label : string;
  parameter_description : string;
  parameter_unit : string;
  parameter_category : string
}.

Definition parameters : list ParameterInfo :=
  [ mkParameterInfo "Tmax" "Maximum Temperature"
      "Daily maximum air temperature" "°C" "temperature";
    mkParameterInfo "Tmin" "Minimum Temperature"
      "Daily minimum air temperature" "°C" "temperature";
    mkParameterInfo "Tmean" "Mean Temperature"
      "Daily mean air temperature" "°C" "temperature";
    mkParameterInfo "Rainfall" "Rainfall"
      "Total precipitation accumulation" "mm" "precipitation";
    mkParameterInfo "Sunshine" "Sunshine Hours"
      "Daily sunshine duration" "hrs" "solar" ].

(** A region (parameter) is recognized when it is the [value] of an entry
    of its table; the comparison is the exact string equality of [===]. *)
Definition recognized_region (r : string) : bool :=
  existsb (String.eqb r) (map region_value regions).

Definition recognized_parameter (p : string) : bool :=
  existsb (String.eqb p) (map parameter_value parameters).

(** ** A state monad for the random source *)

Module Rand.

Definition M (S A : Type) : Type := S -> A * S.

Definition ret {S A : Type} (a : A) : M S A := fun s => (a, s).

Definition bind {S A B : Type} (m : M S A) (k : A -> M S B) : M S B :=
  fun s => let (a, s') := m s in k a s'.

(** Run the callback on each index in turn, left to right. *)
Fixpoint mapM {S A B : Type} (f : A -> M S B) (l : list A) : M S (list B) :=
  match l with
  | [] => ret []
  | a :: l' => bind (f a) (fun b => bind (mapM f l') (fun bs => ret (b :: bs)))
  end.

End Rand.

Notation "x <- m ;; k" := (Rand.bind m (fun x => k))
  (at level 61, m at next level, right associativity).

(** The indices [0, 1, ..., n-1] handed to the callback of [Array.from]. *)
Definition indices (n : nat) : list Z := map Z.of_nat (seq 0 n).

(** [Array.from({ length: len }, (_, i) => f i)]: a length that is not
    positive yields the empty array. *)
Definition Array_from {S A : Type} (len : Z) (f : Z -> Rand.M S A)
  : Rand.M S (list A) :=
  Rand.mapM f (indices (Z.to_nat len)).

(** ** The generator *)

(** The four locals assigned by the [switch] (lines 56-59). *)
Record Components : Type := mkComponents {
  baseValue : R;
  seasonalVariation : R;
  longTermTrend : R;
  randomNoise : R
}.

Section Generator.

Variable RngState : Type.
(** [Math.random()]: one draw, and the state after it. *)
Variable Math_random : Rand.M RngState R.

Open Scope R_scope.

(** The [switch (selectedParameter)] of lines 61-97. *)
Definition switch (selectedRegion selectedParameter : string)
    (i : Z) (yearProgress : R) : Rand.M RngState Components :=
  if (selectedParameter =? "Tmax")%string then
    u <- Math_random ;;
    Rand.ret (mkComponents
      (if (selectedRegion =? "Scotland")%string then 13.2
       else if (selectedRegion =? "UK")%string then 14.8 else 15.1)
      (sin (IZR i * 0.15) * 1.2)
      (yearProgress * 1.8)
      ((u - 0.5) * 1.5))
  else if (selectedParameter =? "Tmin")%string then
    u <- Math_random ;;
    Rand.ret (mkComponents
      (if (selectedRegion =? "Scotland")%string then 4.1
       else if (selectedRegion =? "UK")%string then 6.2 else 6.8)
      (sin (IZR i * 0.18) * 0.9)
      (yearProgress * 1.5)
      ((u - 0.5) * 1.2))
  else if (selectedParameter =? "Tmean")%string then
    u <- Math_random ;;
    Rand.ret (mkComponents
      (if (selectedRegion =? "Scotland")%string then 8.7
       else if (selectedRegion =? "UK")%string then 10.5 else 11.0)
      (sin (IZR i * 0.16) * 1.0)
      (yearProgress * 1.6)
      ((u - 0.5) * 1.0))
  else if (selectedParameter =? "Rainfall")%string then
    u <- Math_random ;;
    Rand.ret (mkComponents
      (if (selectedRegion =? "Wales")%string then 1680
       else if (selectedRegion =? "Scotland")%string then 1500 else 1154)
      (sin (IZR i * 0.12) * 200)
      (yearProgress * 50)
      ((u - 0.5) * 300))
  else if (selectedParameter =? "Sunshine")%string then
    u <- Math_random ;;
    Rand.ret (mkComponents
      (if (selectedRegion =? "Scotland")%string then 1250
       else if (selectedRegion =? "England")%string then 1550 else 1400)
      (sin (IZR i * 0.14) * 150)
      (yearProgress * -20)
      ((u - 0.5) * 200))
  else
    Rand.ret (mkComponents 100 0 0 0).

(** The callback handed to [Array.from] (lines 52-105). *)
Definition point (selectedRegion selectedParameter : string)
    (baseYear yearRange : Z) (i : Z) : Rand.M RngState WeatherData :=
  let year := (baseYear + i)%Z in
  let yearProgress := IZR i / IZR yearRange in
  c <- switch selectedRegion selectedParameter i yearProgress ;;
  Rand.ret (mkWeatherData
    year
    (Rmax 0 (baseValue c + seasonalVariation c + longTermTrend c
             + randomNoise c))
    selectedRegion
    selectedParameter).

(** [mockData] of lines 48-105, with the two year bounds as arguments. *)
Definition generate (selectedRegion selectedParameter : string)
    (baseYear currentYear : Z) : Rand.M RngState (list WeatherData) :=
  let yearRange := (currentYear - baseYear)%Z in
  Array_from yearRange
    (point selectedRegion selectedParameter baseYear yearRange).

(** [fetchWeatherData] fixes [baseYear] to 1884 (line 49); [currentYear]
    is the calendar year read from the clock (line 48). *)
Definition fetchWeatherData (selectedRegion selectedParameter : string)
    (currentYear : Z) : Rand.M RngState (list WeatherData) :=
  generate selectedRegion selectedParameter 1884 currentYear.

End Generator.

Arguments switch {RngState} Math_random _ _ _ _ _.
Arguments point {RngState} Math_random _ _ _ _ _ _.
Arguments generate {RngState} Math_random _ _ _ _ _.
Arguments fetchWeatherData {RngState} Math_random _ _ _ _.

(** The random source that always answers [0.5]; it has no state. *)
Definition constant_half : Rand.M unit R := fun s => (0.5%R, s).

(** ** The summary statistics *)

(** Reading a property of [undefined] throws; nothing else in the
    statistics can. *)
Inductive JsError : Type := TypeError.

Inductive Completion (A : Type) : Type :=
| Normal (a : A)
| Throw (e : JsError).

Arguments Normal {A} a.
Arguments Throw {A} e.

Module Completion.

Definition bind {A B : Type} (c : Completion A) (k : A -> Completion B)
  : Completion B :=
  match c with
  | Normal a => k a
  | Throw e => Throw e
  end.

End Completion.

(** [data[i]]: [undefined] (here [None]) outside [0 .. length-1],
    negative indices included. *)
Definition index {A : Type} (data : list A) (i : Z) : option A :=
  if i <? 0 then None else nth_error data (Z.to_nat i).

(** [x.value] where [x] is an element read by [data[i]]. *)
Definition get_value (x : option WeatherData) : Completion R :=
  match x with
  | Some d => Normal (value d)
  | None => Throw TypeError
  end.

(** [data.reduce(f, init)]. *)
Definition reduce {A B : Type} (f : B -> A -> B) (init : B) (data : list A)
  : B :=
  fold_left f data init.

(** [data.length] as a number. *)
Definition length_of {A : Type} (data : list A) : Z :=
  Z.of_nat (List.length data).

(** Line 157. *)
Definition latest (data : list WeatherData) : option WeatherData :=
  index data (length_of data - 1).

(** Line 158, in exact arithmetic ([Binary64.average] has the rounding). *)
Definition average (data : list WeatherData) : R :=
  if length_of data >? 0
  then (reduce (fun sum d => sum + value d) 0 data / IZR (length_of data))%R
  else 0%R.

(** Line 159. *)
Definition trend (data : list WeatherData) : Completion R :=
  if length_of data >? 1
  then
    Completion.bind (get_value (index data (length_of data - 1))) (fun l =>
    Completion.bind (get_value (index data 0)) (fun f =>
    Normal (l - f)%R))
  else Normal 0%R.

(** The three declarations of lines 157-159, evaluated in order. *)
Record Statistics : Type := mkStatistics {
  stat_latest : option WeatherData;
  stat_average : R;
  stat_trend : R
}.

Definition statistics (data : list WeatherData) : Completion Statistics :=
  let l := latest data in
  let a := average data in
  Completion.bind (trend data) (fun t =>
  Normal (mkStatistics l a t)).

(** Smallest and largest [value] of a series (of the first point onwards). *)
Definition min_value (data : list WeatherData) : R :=
  match data with
  | [] => 0%R
  | d :: ds => fold_left (fun m x => Rmin m (value x)) ds (value d)
  end.

Definition max_value (data : list WeatherData) : R :=
  match data with
  | [] => 0%R
  | d :: ds => fold_left (fun m x => Rmax m (value x)) ds (value d)
  end.

(** ** The constant table of the specification, section 4.1

    Written from the table, to be compared with what [switch] assigns. *)
Module Table.

Open Scope R_scope.

Inductive Param : Type := Tmax | Tmin | Tmean | Rainfall | Sunshine.

Definition name (p : Param) : string :=
  match p with
  | Tmax => "Tmax" | Tmin => "Tmin" | Tmean => "Tmean"
  | Rainfall => "Rainfall" | Sunshine => "Sunshine"
  end.

Definition all : list Param := [Tmax; Tmin; Tmean; Rainfall; Sunshine].

(** First number of the baseline column. *)
Definition default_baseline (p : Param) : R :=
  match p with
  | Tmax => 14.8 | Tmin => 6.2 | Tmean => 10.5
  | Rainfall => 1154 | Sunshine => 1400
  end.

(** Second number of the baseline column. *)
Definition scotland_baseline (p : Param) : R :=
  match p with
  | Tmax => 13.2 | Tmin => 4.1 | Tmean => 8.7
  | Rainfall => 1500 | Sunshine => 1250
  end.

(** Third number of the baseline column. *)
Definition alt_baseline (p : Param) : R :=
  match p with
  | Tmax => 15.1 | Tmin => 6.8 | Tmean => 11.0
  | Rainfall => 1680 | Sunshine => 1550
  end.

Definition amplitude (p : Param) : R :=
  match p with
  | Tmax => 1.2 | Tmin => 0.9 | Tmean => 1.0
  | Rainfall => 200 | Sunshine => 150
  end.

Definition frequency (p : Param) : R :=
  match p with
  | Tmax => 0.15 | Tmin => 0.18 | Tmean => 0.16
  | Rainfall => 0.12 | Sunshine => 0.14
  end.

Definition trendSlope (p : Param) : R :=
  match p with
  | Tmax => 1.8 | Tmin => 1.5 | Tmean => 1.6
  | Rainfall => 50 | Sunshine => -20
  end.

Definition noiseAmplitude (p : Param) : R :=
  match p with
  | Tmax => 1.5 | Tmin => 1.2 | Tmean => 1.0
  | Rainfall => 300 | Sunshine => 200
  end.

End Table.

(** ** Definitions used to state the properties *)

(** The last alternative of the region conditional in each [case]: the
    baseline of every region that the conditional does not name. *)
Definition unnamed_region_baseline (q : Table.Param) : R :=
  match q with
  | Table.Tmax => 15.1 | Table.Tmin => 6.8 | Table.Tmean => 11.0
  | Table.Rainfall => 1154 | Table.Sunshine => 1400
  end%R.

(** The point of index [i] of a recognized parameter, given its baseline
    [b] and its draw [u]. *)
Definition modelled_point (selectedRegion : string) (q : Table.Param)
    (b : R) (baseYear yearRange : Z) (iu : Z * R) : WeatherData :=
  let (i, u) := iu in
  mkWeatherData (baseYear + i)
    (Rmax 0 (b + sin (IZR i * Table.frequency q) * Table.amplitude q
             + IZR i / IZR yearRange * Table.trendSlope q
             + (u - 0.5) * Table.noiseAmplitude q))%R
    selectedRegion (Table.name q).

(** The first [n] answers of a random source started in state [s]. *)
Fixpoint draws {S : Type} (random : Rand.M S R) (n : nat) (s : S) : list R :=
  match n with
  | O => []
  | Datatypes.S n' => fst (random s) :: draws random n' (snd (random s))
  end.

(** The baseline that [switch] assigns for region [r] and parameter [q];
    it depends on nothing else. *)
Definition baseline (r : string) (q : Table.Param) : R :=
  baseValue (fst (switch constant_half r (Table.name q) 0 0%R tt)).

(** The baselines by region (rows, in the order of [regions]) and by
    parameter (columns, in the order of [parameters]). *)
Definition baseline_rows : list (string * list R) :=
  [ ("UK",              [14.8; 6.2; 10.5; 1154; 1400]);
    ("England",         [15.1; 6.8; 11.0; 1154; 1550]);
    ("Wales",           [15.1; 6.8; 11.0; 1680; 1400]);
    ("Scotland",        [13.2; 4.1;  8.7; 1500; 1250]);
    ("NorthernIreland", [15.1; 6.8; 11.0; 1154; 1400]) ]%R.

(** A random source with a state: a counter, answering its reciprocal. *)
Definition counting_source : Rand.M nat R :=
  fun n => ((/ (INR n + 2))%R, Datatypes.S n).

(** ** The presentation helpers *)

(** The object literal of line 134, returned when no entry matches. *)
Definition empty_parameter_info : ParameterInfo :=
  mkParameterInfo "" "" "" "" "".

(** [getParameterInfo] (lines 133-135): [parameters.find(...) || {...}];
    an entry, being an object, is never falsy. *)
Definition getParameterInfo (param : string) : ParameterInfo :=
  match find (fun p => (parameter_value p =? param)%string) parameters with
  | Some p => p
  | None => empty_parameter_info
  end.

(** [s.includes(sub)]: [sub] occurs in [s] at some position. *)
Fixpoint includes (s sub : string) : bool :=
  if prefix sub s then true
  else match s with
       | EmptyString => false
       | String _ s' => includes s' sub
       end.

(** [getTemperatureColor] (lines 148-155). *)
Definition getTemperatureColor (value : R) (param : string) : string :=
  if includes param "T" then
    if Rlt_dec 15 value then "hsl(var(--weather-warm))"
    else if Rlt_dec 8 value then "hsl(var(--weather-cool))"
    else "hsl(var(--weather-cold))"
  else "hsl(var(--primary))".

(** [latest?.value || 0] (lines 316-317): 0 when [latest] is undefined,
    and when its value is the falsy number 0. *)
Definition latest_value_or_0 (latest : option WeatherData) : R :=
  match latest with
  | Some d => if Req_dec_T (value d) 0 then 0%R else value d
  | None => 0%R
  end.

(** [latest?.year] (lines 312, 336). *)
Definition latest_year (latest : option WeatherData) : option Z :=
  match latest with
  | Some d => Some (year d)
  | None => None
  end.

(** What a template literal prints for a string that may be undefined. *)
Definition print_optional (x : option string) : string :=
  match x with
  | Some s => s
  | None => "undefined"
  end.

Section Host.

(** Built-ins of the language that turn numbers and strings into strings:
    [x.toFixed(digits)], [Math.round(x)], the conversion of a number inside
    a template literal, and [s.toLowerCase()]. *)
Variable toFixed : R -> Z -> string.
Variable Math_round : R -> R.
Variable Number_toString : R -> string.
Variable toLowerCase : string -> string.

(** [formatValue] (lines 137-146). *)
Definition formatValue (value : R) (param : string) : string :=
  let info := getParameterInfo param in
  if (parameter_category info =? "temperature")%string then
    toFixed value 1 ++ parameter_unit info
  else if (param =? "Rainfall")%string then
    Number_toString (Math_round value) ++ parameter_unit info
  else
    Number_toString (Math_round value) ++ parameter_unit info.

(** The text of the trend card (line 350): an optional plus sign, then the
    formatted magnitude. *)
Definition trend_text (trend : R) (selectedParameter : string) : string :=
  (if Rge_dec trend 0 then "+" else "")
  ++ formatValue (Rabs trend) selectedParameter.

(** The [description] of the toast of lines 113-116. *)
Definition toast_description (mockData : list WeatherData)
    (selectedParameter selectedRegion : string) : string :=
  "Loaded " ++ Number_toString (IZR (length_of mockData))
  ++ " years of "
  ++ print_optional
       (match find (fun p => (parameter_value p =? selectedParameter)%string)
                parameters with
        | Some p => Some (toLowerCase (parameter_label p))
        | None => None
        end)
  ++ " data for "
  ++ print_optional
       (match find (fun r => (region_value r =? selectedRegion)%string)
                regions with
        | Some r => Some (region_label r)
        | None => None
        end).

End Host.

(** ** More definitions used to state the properties *)

(** The state of a random source after [n] draws. *)
Fixpoint advance {S : Type} (random : Rand.M S R) (n : nat) (s : S) : S :=
  match n with
  | O => s
  | Datatypes.S n' => advance random n' (snd (random s))
  end.

(** Least and greatest value that the constants of a [case] allow when
    every draw lies in [0, 1): smallest (greatest) baseline of the case,
    minus (plus) the amplitude, plus the trend at its lowest (highest),
    minus (plus) half the noise width. *)
Definition value_lower (q : Table.Param) : R :=
  match q with
  | Table.Tmax => 13.2 - 1.2 - 1.5 / 2
  | Table.Tmin => 4.1 - 0.9 - 1.2 / 2
  | Table.Tmean => 8.7 - 1.0 - 1.0 / 2
  | Table.Rainfall => 1154 - 200 - 300 / 2
  | Table.Sunshine => 1250 - 150 - 20 - 200 / 2
  end%R.

Definition value_upper (q : Table.Param) : R :=
  match q with
  | Table.Tmax => 15.1 + 1.2 + 1.8 + 1.5 / 2
  | Table.Tmin => 6.8 + 0.9 + 1.5 + 1.2 / 2
  | Table.Tmean => 11.0 + 1.0 + 1.6 + 1.0 / 2
  | Table.Rainfall => 1680 + 200 + 50 + 300 / 2
  | Table.Sunshine => 1550 + 150 + 200 / 2
  end%R.

(** Stand-ins for the host built-ins, to run the helpers on examples. *)
Definition sample_toFixed (x : R) (digits : Z) : string := "0.0".
Definition sample_toString (x : R) : string := "0".

(** ** Line 158 in double precision

    The numbers of the program are binary64 doubles, and [+] and [/] give
    the exact result rounded to the nearest double, ties to even (IEEE 754).
    For the sum and the quotient of line 158 the rounding matters, so the
    line is modelled a second time with that rounding written out.  The
    values of a series are never negative (each is a [Math.max(0, ...)]),
    so the model has the finite doubles that are not negative, and
    [Infinity] for a result too large to be finite. *)

Module Binary64.

Definition prec : Z := 53.
Definition emin : Z := -1074.
Definition emax : Z := 1024.

(** The number [mantissa * 2 ^ exponent], with [0 <= mantissa]. *)
Record double : Type := mkDouble { mantissa : Z; exponent : Z }.

Inductive number : Type := Finite (d : double) | Infinity.

Definition zero : number := Finite (mkDouble 0 0).

(** For [0 < a] and [0 < b], the integer [l] with
    [2 ^ l <= a / b < 2 ^ (l + 1)]. *)
Definition ilog2_ratio (a b : Z) : Z :=
  let t := Z.max 0 (Z.log2 b + 1 - Z.log2 a) in
  Z.log2 (a * 2 ^ t / b) - t.

(** The integer nearest to [N / D], the even one when two are as near. *)
Definition nearest_even (N D : Z) : Z :=
  let k := N / D in
  let r := N mod D in
  if 2 * r <? D then k
  else if D <? 2 * r then k + 1
  else if Z.even k then k else k + 1.

(** The double nearest to [a / b * 2 ^ s], for [0 <= a] and [0 < b]: a
    multiple of [2 ^ q] where [q] leaves 53 significant bits, or is the
    least exponent [emin] for a subnormal result; [Infinity] from
    [2 ^ emax] on. *)
Definition round (a b s : Z) : number :=
  if a <=? 0 then zero
  else
    let E := ilog2_ratio a b + s in
    let q := Z.max (E - (prec - 1)) emin in
    let k := if q <=? s then nearest_even (a * 2 ^ (s - q)) b
             else nearest_even a (b * 2 ^ (q - s)) in
    if (emax <=? E) || ((E =? emax - 1) && (2 ^ prec <=? k))
    then Infinity
    else Finite (mkDouble k q).

(** [x + y]. *)
Definition add (x y : number) : number :=
  match x, y with
  | Finite x, Finite y =>
      let e := Z.min (exponent x) (exponent y) in
      round (mantissa x * 2 ^ (exponent x - e)
             + mantissa y * 2 ^ (exponent y - e)) 1 e
  | _, _ => Infinity
  end.

(** [x / n] for a length [n], an integer that is itself a double. *)
Definition div_length (x : number) (n : Z) : number :=
  match x with
  | Finite x => round (mantissa x) n (exponent x)
  | Infinity => Infinity
  end.

(** Comparison of two numbers by their exact values. *)
Definition compare (x y : number) : comparison :=
  match x, y with
  | Finite x, Finite y =>
      let e := Z.min (exponent x) (exponent y) in
      (mantissa x * 2 ^ (exponent x - e)
       ?= mantissa y * 2 ^ (exponent y - e))
  | Finite _, Infinity => Lt
  | Infinity, Finite _ => Gt
  | Infinity, Infinity => Eq
  end.

Definition eqb (x y : number) : bool :=
  match compare x y with Eq => true | _ => false end.

Definition ltb (x y : number) : bool :=
  match compare x y with Lt => true | _ => false end.

Definition leb (x y : number) : bool := negb (ltb y x).

(** [interface WeatherData] with [value] a double. *)
Record WeatherData : Type := mkWeatherData {
  year : Z;
  value : number;
  region : string;
  parameter : string
}.

(** Line 158. *)
Definition average (data : list WeatherData) : number :=
  if length_of data >? 0
  then div_length (reduce (fun sum d => add sum (value d)) zero data)
         (length_of data)
  else zero.

(** Smallest and largest [value] of a series. *)
Definition min_value (data : list WeatherData) : number :=
  match data with
  | [] => zero
  | d :: ds =>
      fold_left (fun m x => if ltb (value x) m then value x else m) ds
        (value d)
  end.

Definition max_value (data : list WeatherData) : number :=
  match data with
  | [] => zero
  | d :: ds =>
      fold_left (fun m x => if ltb m (value x) then value x else m) ds
        (value d)
  end.

(** The real number that a finite double stands for. *)
Definition to_R (d : double) : R :=
  (IZR (mantissa d) * powerRZ 2 (exponent d))%R.

(** The unit roundoff [2 ^ -53]: half the gap between 1 and the next
    double. *)
Definition u : R := powerRZ 2 (- prec).

End Binary64.

(** The same line on the binary64 floats built into the proof assistant,
    to compare the model with. *)
Module Kernel64.

(** Line 158 on the list of the [value]s of [data]. *)
Definition average (values : list float) : float :=
  if length_of values >? 0
  then (reduce (fun sum v => sum + v) 0 values
        / PrimFloat.of_uint63 (Uint63.of_Z (length_of values)))%float
  else 0%float.

(** A float that is not negative, as a number of the model. *)
Definition to_number (f : float) : option Binary64.number :=
  match Prim2SF f with
  | S754_zero _ => Some Binary64.zero
  | S754_finite false m e =>
      Some (Binary64.Finite (Binary64.mkDouble (Z.pos m) e))
  | S754_infinity false => Some Binary64.Infinity
  | _ => None
  end.

(** Line 158 of the model on the same values. *)
Definition model_average (values : list float) : option Binary64.number :=
  match fold_right
          (fun v acc =>
             match to_number v, acc with
             | Some x, Some l =>
                 Some (Binary64.mkWeatherData 0 x "" "" :: l)
             | _, _ => None
             end)
          (Some []) values with
  | Some data => Some (Binary64.average data)
  | None => None
  end.

(** Both give the same number on [values]. *)
Definition agree (values : list float) : bool :=
  match to_number (average values), model_average values with
  | Some x, Some y => Binary64.eqb x y
  | _, _ => false
  end.

(** Series that exercise ties, subnormal results, sums beyond 2^53 and
    overflow; [0x1.999999999999ap-4] is the double nearest to 0.1 and
    [0x1.34d8dc4e8a2bap+10] is 1235.3884464597054. *)
Definition samples : list (list float) :=
  [ [0x1.999999999999ap-4; 0x1.999999999999ap-4; 0x1.999999999999ap-4];
    [0x1.34d8dc4e8a2bap+10; 0x1.34d8dc4e8a2bap+10; 0x1.34d8dc4e8a2bap+10;
     0x1.34d8dc4e8a2bap+10; 0x1.34d8dc4e8a2bap+10; 0x1.34d8dc4e8a2bap+10];
    [100; 100; 100; 100; 100; 100; 100];
    [0x1p-1074];
    [0x1p-1074; 0x3p-1074; 0x1p-1060];
    [0x1p-1022; 0x1p-1022; 0x1p-1030];
    [0x1p+53; 1; 1; 1];
    [0.5; 0.25; 2.5; 3.5; 0x1.0000000000001p+52; 0.5];
    [0x1.fffffffffffffp+1023; 0x1p+970];
    [0x1.fffffffffffffp+1023; 0x1.fffffffffffffp+969];
    [0x1p+1023; 0x1p+1023];
    [0; 0] ]%float.

End Kernel64.

(** * Properties *)

(** ** The array construction *)

Section MapM.

Context {S A B : Type}.
Variable f : A -> Rand.M S B.

Lemma mapM_nil (s : S) : Rand.mapM f [] s = ([], s).
Proof. reflexivity. Qed.

Lemma mapM_cons (a : A) (l : list A) (s : S) :
  Rand.mapM f (a :: l) s =
  (fst (f a s) :: fst (Rand.mapM f l (snd (f a s))),
   snd (Rand.mapM f l (snd (f a s)))).
Proof.
  cbn [Rand.mapM]. unfold Rand.bind, Rand.ret.
  destruct (f a s) as [b s1]; cbn [fst snd].
  destruct (Rand.mapM f l s1) as [bs s2]; reflexivity.
Qed.

(** Whatever holds of the callback's result at every state holds
    pointwise between the indices and the array. *)
Lemma mapM_Forall2 (P : A -> B -> Prop) :
  (forall a s, P a (fst (f a s))) ->
  forall l s, Forall2 P l (fst (Rand.mapM f l s)).
Proof.
  intros HP l; induction l as [|a l IH]; intros s.
  - constructor.
  - rewrite mapM_cons; cbn [fst]. constructor; [apply HP | apply IH].
Qed.

(** A callback that never touches the state builds a plain [map]. *)
Lemma mapM_pure (g : A -> B) :
  (forall a s, f a s = (g a, s)) ->
  forall l s, Rand.mapM f l s = (map g l, s).
Proof.
  intros Hf l; induction l as [|a l IH]; intros s.
  - reflexivity.
  - rewrite mapM_cons, Hf; cbn [fst snd]. rewrite IH. reflexivity.
Qed.

End MapM.

Lemma Forall2_length_eq {A B : Type} (P : A -> B -> Prop) l l' :
  Forall2 P l l' -> List.length l = List.length l'.
Proof. induction 1; cbn; congruence. Qed.

Lemma Forall2_nth_error {A B : Type} (P : A -> B -> Prop) l l' :
  Forall2 P l l' ->
  forall n a, nth_error l n = Some a ->
  exists b, nth_error l' n = Some b /\ P a b.
Proof.
  induction 1 as [|x y l l' Hxy _ IH]; intros [|n] a Hn; cbn in *;
    try discriminate.
  - injection Hn as <-. eauto.
  - eauto.
Qed.

Lemma Forall2_Forall_r {A B : Type} (P : A -> B -> Prop) (Q : B -> Prop) l l' :
  Forall2 P l l' -> (forall a b, P a b -> Q b) -> Forall Q l'.
Proof. induction 1; intros HQ; constructor; eauto. Qed.

Lemma indices_length (n : nat) : List.length (indices n) = n.
Proof. unfold indices. now rewrite length_map, length_seq. Qed.

Lemma indices_nth_error (n i : nat) :
  (i < n)%nat -> nth_error (indices n) i = Some (Z.of_nat i).
Proof.
  intros Hi. unfold indices.
  rewrite nth_error_map, nth_error_seq.
  destruct (Nat.ltb_spec i n); [reflexivity | lia].
Qed.

(** ** The generator *)

Section GeneratorFacts.

Context {RngState : Type}.
Variable Math_random : Rand.M RngState R.

Lemma point_year selectedRegion selectedParameter baseYear yearRange i s :
  year (fst (point Math_random selectedRegion selectedParameter
               baseYear yearRange i s)) = baseYear + i.
Proof.
  unfold point, Rand.bind, Rand.ret.
  destruct (switch _ _ _ _ _ _) as [c s']. reflexivity.
Qed.

Lemma point_value_nonneg selectedRegion selectedParameter baseYear yearRange
    i s :
  (0 <= value (fst (point Math_random selectedRegion selectedParameter
                      baseYear yearRange i s)))%R.
Proof.
  unfold point, Rand.bind, Rand.ret.
  destruct (switch _ _ _ _ _ _) as [c s']. cbn [fst value].
  apply Rmax_l.
Qed.

(** What every call of the callback guarantees holds between index and
    point all along the series. *)
Lemma generate_Forall2 (P : Z -> WeatherData -> Prop)
    selectedRegion selectedParameter baseYear currentYear :
  (forall i s, P i (fst (point Math_random selectedRegion selectedParameter
                           baseYear (currentYear - baseYear) i s))) ->
  forall s,
    Forall2 P (indices (Z.to_nat (currentYear - baseYear)))
      (fst (generate Math_random selectedRegion selectedParameter
              baseYear currentYear s)).
Proof.
  intros HP s. unfold generate, Array_from. now apply mapM_Forall2.
Qed.

Lemma generate_length selectedRegion selectedParameter baseYear currentYear
    s :
  List.length (fst (generate Math_random selectedRegion selectedParameter
                      baseYear currentYear s))
  = Z.to_nat (currentYear - baseYear).
Proof.
  rewrite <- (Forall2_length_eq _ _ _
                (generate_Forall2 (fun _ _ => True) selectedRegion
                   selectedParameter baseYear currentYear
                   (fun _ _ => I) s)).
  apply indices_length.
Qed.

End GeneratorFacts.

(** C2.  When [baseYear < currentYear] the series has exactly
    [currentYear - baseYear] points, point [i] carries the year
    [baseYear + i], and so the years increase strictly along the series. *)
Theorem generate_length_and_years
    (RngState : Type) (Math_random : Rand.M RngState R) (s : RngState)
    (selectedRegion selectedParameter : string) (baseYear currentYear : Z) :
  baseYear < currentYear ->
  let series :=
    fst (generate Math_random selectedRegion selectedParameter
           baseYear currentYear s) in
  length_of series = currentYear - baseYear /\
  (forall i, 0 <= i < currentYear - baseYear ->
     exists d, index series i = Some d /\ year d = baseYear + i) /\
  (forall i j di dj, i < j -> index series i = Some di ->
     index series j = Some dj -> year di < year dj).
Proof.
  intros Hlt series.
  assert (Hlen : length_of series = currentYear - baseYear).
  { unfold length_of, series. rewrite generate_length. lia. }
  assert (Hyear : forall i d, index series i = Some d -> year d = baseYear + i).
  { intros i d. unfold index. destruct (Z.ltb_spec i 0); [discriminate|].
    intros Hd.
    assert (Hi : (Z.to_nat i < List.length series)%nat)
      by (apply nth_error_Some; congruence).
    unfold series in Hd, Hi. rewrite generate_length in Hi.
    destruct (Forall2_nth_error _ _ _
                (generate_Forall2 Math_random
                   (fun k d => year d = baseYear + k)
                   selectedRegion selectedParameter baseYear currentYear
                   (fun k s0 => point_year Math_random _ _ _ _ k s0) s)
                (Z.to_nat i) _ (indices_nth_error _ _ Hi)) as (d' & Hd' & Hy).
    rewrite Hd in Hd'. injection Hd' as <-. rewrite Hy. lia. }
  split; [exact Hlen|]. split.
  - intros i Hi.
    destruct (index series i) as [d|] eqn:Hd.
    + exists d. split; [reflexivity|]. now apply Hyear.
    + exfalso. unfold index in Hd.
      destruct (Z.ltb_spec i 0); [lia|].
      apply nth_error_None in Hd. unfold length_of in Hlen. lia.
  - intros i j di dj Hij Hi Hj.
    rewrite (Hyear _ _ Hi), (Hyear _ _ Hj). lia.
Qed.

Lemma generate_length_and_years_witness :
  let series := fst (generate constant_half "UK" "Tmax" 1884 1887 tt) in
  length_of series = 1887 - 1884 /\
  (forall i, 0 <= i < 1887 - 1884 ->
     exists d, index series i = Some d /\ year d = 1884 + i) /\
  (forall i j di dj, i < j -> index series i = Some di ->
     index series j = Some dj -> year di < year dj).
Proof.
  apply (generate_length_and_years unit constant_half tt "UK" "Tmax"
           1884 1887).
  reflexivity.
Defined.

(** C3.  Every point of every generated series has a value that is not
    negative, whatever the region, the parameter (recognized or not), the
    year bounds and the random source. *)
Theorem generate_value_nonneg
    (RngState : Type) (Math_random : Rand.M RngState R) (s : RngState)
    (selectedRegion selectedParameter : string) (baseYear currentYear : Z) :
  Forall (fun d => (0 <= value d)%R)
    (fst (generate Math_random selectedRegion selectedParameter
            baseYear currentYear s)).
Proof.
  eapply Forall2_Forall_r.
  - apply (generate_Forall2 Math_random (fun _ d => (0 <= value d)%R)).
    intros i s0. apply point_value_nonneg.
  - intros i d Hd. exact Hd.
Qed.

(** ** Which branch of the [switch] runs *)

Lemma recognized_parameter_name (q : Table.Param) :
  recognized_parameter (Table.name q) = true.
Proof. destruct q; reflexivity. Qed.

Lemma recognized_parameter_inv (p : string) :
  recognized_parameter p = true -> exists q, p = Table.name q.
Proof.
  unfold recognized_parameter; cbn [map parameters parameter_value existsb].
  intros H.
  repeat (apply orb_true_iff in H; destruct H as [H|H]);
    try discriminate H; apply String.eqb_eq in H.
  - now exists Table.Tmax.
  - now exists Table.Tmin.
  - now exists Table.Tmean.
  - now exists Table.Rainfall.
  - now exists Table.Sunshine.
Qed.

Lemma unrecognized_parameter_inv (p : string) :
  recognized_parameter p = false ->
  (p =? "Tmax")%string = false /\ (p =? "Tmin")%string = false /\
  (p =? "Tmean")%string = false /\ (p =? "Rainfall")%string = false /\
  (p =? "Sunshine")%string = false.
Proof.
  unfold recognized_parameter; cbn [map parameters parameter_value existsb].
  intros H. repeat (apply orb_false_iff in H; destruct H as [? H]).
  repeat split; assumption.
Qed.

Lemma unrecognized_region_inv (r : string) :
  recognized_region r = false ->
  (r =? "UK")%string = false /\ (r =? "England")%string = false /\
  (r =? "Wales")%string = false /\ (r =? "Scotland")%string = false /\
  (r =? "NorthernIreland")%string = false.
Proof.
  unfold recognized_region; cbn [map regions region_value existsb].
  intros H. repeat (apply orb_false_iff in H; destruct H as [? H]).
  repeat split; assumption.
Qed.

Section Branches.

Context {RngState : Type}.
Variable Math_random : Rand.M RngState R.

Lemma switch_unrecognized r p i yearProgress s :
  recognized_parameter p = false ->
  switch Math_random r p i yearProgress s
  = (mkComponents 100 0 0 0, s).
Proof.
  intros H. apply unrecognized_parameter_inv in H.
  destruct H as (H1 & H2 & H3 & H4 & H5).
  unfold switch. rewrite H1, H2, H3, H4, H5. reflexivity.
Qed.

Lemma point_unrecognized r p baseYear yearRange i s :
  recognized_parameter p = false ->
  point Math_random r p baseYear yearRange i s
  = (mkWeatherData (baseYear + i) 100 r p, s).
Proof.
  intros H. unfold point, Rand.bind.
  rewrite (switch_unrecognized _ _ _ _ _ H).
  unfold Rand.ret; cbn [baseValue seasonalVariation longTermTrend randomNoise].
  do 2 f_equal. rewrite Rmax_right; lra.
Qed.

Lemma generate_unrecognized r p baseYear currentYear s :
  recognized_parameter p = false ->
  generate Math_random r p baseYear currentYear s
  = (map (fun i => mkWeatherData (baseYear + i) 100 r p)
       (indices (Z.to_nat (currentYear - baseYear))), s).
Proof.
  intros H. unfold generate, Array_from.
  apply mapM_pure. intros i s0. now apply point_unrecognized.
Qed.

(** A recognized parameter draws once per point. *)
Lemma point_unnamed_region r q baseYear yearRange i s :
  recognized_region r = false ->
  point Math_random r (Table.name q) baseYear yearRange i s
  = (modelled_point r q (unnamed_region_baseline q) baseYear yearRange
       (i, fst (Math_random s)),
     snd (Math_random s)).
Proof.
  intros H. apply unrecognized_region_inv in H.
  destruct H as (H1 & H2 & H3 & H4 & H5).
  unfold point, switch, Rand.bind, Rand.ret, modelled_point.
  destruct q; cbn [Table.name];
    rewrite ?H1, ?H2, ?H3, ?H4, ?H5;
    cbn [String.eqb Ascii.eqb Bool.eqb];
    destruct (Math_random s) as [u s']; reflexivity.
Qed.

Lemma mapM_draws {A B : Type} (f : A -> Rand.M RngState B)
    (g : A * R -> B) :
  (forall a s, f a s = (g (a, fst (Math_random s)), snd (Math_random s))) ->
  forall l s,
    fst (Rand.mapM f l s)
    = map g (combine l (draws Math_random (List.length l) s)).
Proof.
  intros Hf l; induction l as [|a l IH]; intros s.
  - reflexivity.
  - rewrite mapM_cons, Hf; cbn [fst snd List.length draws combine map].
    now rewrite IH.
Qed.

End Branches.

(** ** Fallbacks *)

(** C1, as stated, fails.  ["Atlantis"] is not an entry of [regions] and
    ["Tmax"] is an entry of [parameters], yet the one point generated for
    1884 has the value 15.1, not 100: the [case 'Tmax'] branch runs and its
    region conditional ends in 15.1. *)
Lemma unrecognized_region_not_neutral :
  recognized_region "Atlantis" = false /\
  recognized_parameter "Tmax" = true /\
  fst (generate constant_half "Atlantis" "Tmax" 1884 1885 tt)
  = [mkWeatherData 1884 15.1 "Atlantis" "Tmax"] /\
  ~ Forall (fun d => value d = 100%R)
      (fst (generate constant_half "Atlantis" "Tmax" 1884 1885 tt)).
Proof.
  assert (E : fst (generate constant_half "Atlantis" "Tmax" 1884 1885 tt)
              = [mkWeatherData 1884 15.1 "Atlantis" "Tmax"]).
  { unfold generate, Array_from.
    change (Z.to_nat (1885 - 1884)) with 1%nat.
    change (indices 1) with [0].
    rewrite mapM_cons, mapM_nil; cbn [fst snd].
    rewrite (point_unnamed_region constant_half "Atlantis" Table.Tmax)
      by reflexivity.
    cbn [fst modelled_point constant_half Table.frequency Table.amplitude
         Table.trendSlope Table.noiseAmplitude unnamed_region_baseline
         Table.name].
    do 2 f_equal.
    replace (0 * 0.15)%R with 0%R by lra. rewrite sin_0.
    rewrite Rmax_right; lra. }
  repeat split; try reflexivity; [exact E|].
  rewrite E. intros H. inversion H as [|? ? Hv _]; subst.
  cbn [value] in Hv. lra.
Qed.

(** C1, amended.  For a region that is not an entry of [regions] and a
    parameter that is, the series is computed by the parameter's own branch:
    the baseline is the last alternative of that branch's region conditional
    (15.1, 6.8, 11.0, 1154, 1400), and the seasonal, trend and noise terms
    are the parameter's usual ones, the noise of point [i] coming from the
    [i]-th draw of the random source. *)
Theorem unrecognized_region_series
    (RngState : Type) (Math_random : Rand.M RngState R) (s : RngState)
    (r p : string) (baseYear currentYear : Z) :
  recognized_region r = false ->
  recognized_parameter p = true ->
  exists q, p = Table.name q /\
    let n := Z.to_nat (currentYear - baseYear) in
    fst (generate Math_random r p baseYear currentYear s)
    = map (modelled_point r q (unnamed_region_baseline q)
             baseYear (currentYear - baseYear))
        (combine (indices n) (draws Math_random n s)).
Proof.
  intros Hr Hp. destruct (recognized_parameter_inv _ Hp) as [q ->].
  exists q. split; [reflexivity|]. intros n.
  unfold generate, Array_from. fold n.
  rewrite (mapM_draws Math_random _
             (modelled_point r q (unnamed_region_baseline q)
                baseYear (currentYear - baseYear))).
  - now rewrite indices_length.
  - intros i s0. now apply point_unnamed_region.
Qed.

Lemma unrecognized_region_series_witness :
  exists q, "Rainfall" = Table.name q /\
    let n := Z.to_nat (1886 - 1884) in
    fst (generate constant_half "Atlantis" "Rainfall" 1884 1886 tt)
    = map (modelled_point "Atlantis" q (unnamed_region_baseline q)
             1884 (1886 - 1884))
        (combine (indices n) (draws constant_half n tt)).
Proof.
  apply (unrecognized_region_series unit constant_half tt
           "Atlantis" "Rainfall" 1884 1886); reflexivity.
Defined.

(** ** Baselines *)

Lemma switch_baseline {RngState : Type} (Math_random : Rand.M RngState R)
    r q i yearProgress s :
  baseValue (fst (switch Math_random r (Table.name q) i yearProgress s))
  = baseline r q.
Proof.
  unfold baseline, switch, Rand.bind, Rand.ret, constant_half.
  destruct q; cbn [Table.name String.eqb Ascii.eqb Bool.eqb];
    destruct (Math_random s); reflexivity.
Qed.

(** The first constant of each row of the table is the baseline of UK, the
    second that of Scotland. *)
Lemma baseline_UK (q : Table.Param) :
  baseline "UK" q = Table.default_baseline q.
Proof. destruct q; reflexivity. Qed.

Lemma baseline_Scotland (q : Table.Param) :
  baseline "Scotland" q = Table.scotland_baseline q.
Proof. destruct q; reflexivity. Qed.

(** The third constant is the baseline of England, Wales and
    NorthernIreland for the temperatures, of Wales for Rainfall and of
    England for Sunshine. *)
Lemma baseline_alt :
  Forall (fun r => Forall (fun q => baseline r q = Table.alt_baseline q)
                     [Table.Tmax; Table.Tmin; Table.Tmean])
    ["England"; "Wales"; "NorthernIreland"] /\
  baseline "Wales" Table.Rainfall = Table.alt_baseline Table.Rainfall /\
  baseline "England" Table.Sunshine = Table.alt_baseline Table.Sunshine.
Proof. repeat constructor. Qed.

(** C4, as stated, fails for the temperatures.  Whichever single region is
    taken as the one with the 15.1 override, some other entry of [regions],
    different from Scotland, does not have the baseline 14.8 for Tmax:
    England, Wales and NorthernIreland all get 15.1. *)
Lemma tmax_default_not_shared :
  ~ exists alt : string,
      forall r, recognized_region r = true ->
        r <> "Scotland" -> r <> alt ->
        baseline r Table.Tmax = Table.default_baseline Table.Tmax.
Proof.
  intros [alt H].
  destruct (string_dec "Wales" alt) as [Hw|Hw].
  - assert (He : "England" <> alt) by (rewrite <- Hw; discriminate).
    specialize (H "England" eq_refl ltac:(discriminate) He).
    cbv [baseline switch Rand.bind Rand.ret constant_half fst baseValue
         Table.name Table.default_baseline String.eqb Ascii.eqb Bool.eqb]
      in H.
    lra.
  - specialize (H "Wales" eq_refl ltac:(discriminate) Hw).
    cbv [baseline switch Rand.bind Rand.ret constant_half fst baseValue
         Table.name Table.default_baseline String.eqb Ascii.eqb Bool.eqb]
      in H.
    lra.
Qed.

(** C4, amended.  For Rainfall and Sunshine every entry of [regions] other
    than Scotland and the one other named region (Wales for Rainfall,
    England for Sunshine) has the first constant of the table (1154, 1400).
    For Tmax, Tmin and Tmean the first constant (14.8, 6.2, 10.5) is the
    baseline of UK alone, Scotland has the second (13.2, 4.1, 8.7) and
    England, Wales and NorthernIreland all have the third (15.1, 6.8, 11.0).
    The baseline does not depend on the index, the progress or the random
    source. *)
Theorem baseline_by_region
    (RngState : Type) (Math_random : Rand.M RngState R) (s : RngState)
    (i : Z) (yearProgress : R) :
  map (fun r =>
         (r, map (fun q =>
                    baseValue (fst (switch Math_random r (Table.name q)
                                      i yearProgress s)))
               Table.all))
    (map region_value regions)
  = baseline_rows.
Proof.
  cbn [map regions region_value Table.all].
  rewrite !switch_baseline. reflexivity.
Qed.

(** ** End-to-end examples *)

(** C5.  Region UK, parameter Tmax, years 1884 to 1885, random source
    constantly 0.5: the series is the single point of year 1884 and value
    14.8. *)
Theorem generate_UK_Tmax_1884 :
  fst (generate constant_half "UK" "Tmax" 1884 1885 tt)
  = [mkWeatherData 1884 14.8 "UK" "Tmax"].
Proof.
  unfold generate, Array_from.
  change (Z.to_nat (1885 - 1884)) with 1%nat.
  change (indices 1) with [0].
  rewrite mapM_cons, mapM_nil; cbn [fst snd].
  cbv [point switch Rand.bind Rand.ret constant_half fst
       baseValue seasonalVariation longTermTrend randomNoise
       String.eqb Ascii.eqb Bool.eqb].
  change (1884 + 0) with 1884. change (1885 - 1884) with 1.
  do 2 f_equal.
  replace (0 * 0.15)%R with 0%R by lra. rewrite sin_0.
  rewrite Rmax_right; lra.
Qed.

(** C6.  With the parameter ["Humidity"], which is not an entry of
    [parameters], and the random source constantly 0.5, every point of the
    series has the value 100, for every region and every pair of years. *)
Theorem generate_Humidity_constant_half
    (selectedRegion : string) (baseYear currentYear : Z) :
  Forall (fun d => value d = 100%R)
    (fst (generate constant_half selectedRegion "Humidity"
            baseYear currentYear tt)).
Proof.
  rewrite (generate_unrecognized constant_half selectedRegion "Humidity")
    by reflexivity.
  cbn [fst]. apply Forall_forall. intros d Hd.
  apply in_map_iff in Hd. destruct Hd as (i & <- & _). reflexivity.
Qed.

(** C10.  For a parameter that is not an entry of [parameters] the series
    does not depend on the random source: two runs with the same region and
    years and any two sources, in any states, give the same series, every
    value of which is 100; the source is not even advanced. *)
Theorem unrecognized_parameter_ignores_random
    (S1 S2 : Type) (random1 : Rand.M S1 R) (random2 : Rand.M S2 R)
    (s1 : S1) (s2 : S2)
    (selectedRegion p : string) (baseYear currentYear : Z) :
  recognized_parameter p = false ->
  fst (generate random1 selectedRegion p baseYear currentYear s1)
  = fst (generate random2 selectedRegion p baseYear currentYear s2) /\
  Forall (fun d => value d = 100%R)
    (fst (generate random1 selectedRegion p baseYear currentYear s1)) /\
  snd (generate random1 selectedRegion p baseYear currentYear s1) = s1.
Proof.
  intros Hp.
  rewrite (generate_unrecognized random1 selectedRegion p _ _ s1 Hp).
  rewrite (generate_unrecognized random2 selectedRegion p _ _ s2 Hp).
  cbn [fst snd]. repeat split.
  apply Forall_forall. intros d Hd.
  apply in_map_iff in Hd. destruct Hd as (i & <- & _). reflexivity.
Qed.

Lemma unrecognized_parameter_ignores_random_witness :
  fst (generate constant_half "Wales" "Humidity" 1884 1890 tt)
  = fst (generate counting_source "Wales" "Humidity" 1884 1890 7%nat) /\
  Forall (fun d => value d = 100%R)
    (fst (generate constant_half "Wales" "Humidity" 1884 1890 tt)) /\
  snd (generate constant_half "Wales" "Humidity" 1884 1890 tt) = tt.
Proof.
  apply (unrecognized_parameter_ignores_random unit nat
           constant_half counting_source tt 7%nat "Wales" "Humidity"
           1884 1890).
  reflexivity.
Defined.

(** ** Summary statistics *)

Lemma index_last (data : list WeatherData) (d : WeatherData) :
  index (data ++ [d]) (length_of (data ++ [d]) - 1) = Some d.
Proof.
  unfold index, length_of. rewrite length_app; cbn [List.length].
  destruct (Z.ltb_spec (Z.of_nat (List.length data + 1) - 1) 0); [lia|].
  replace (Z.to_nat (Z.of_nat (List.length data + 1) - 1))
    with (List.length data) by lia.
  rewrite nth_error_app2 by lia. now rewrite Nat.sub_diag.
Qed.

(** C7.  For a series that is not empty, [trend] is the value of the last
    point minus the value of the first; for a series of one point it is 0. *)
Theorem trend_last_minus_first (data : list WeatherData) :
  (0 < List.length data)%nat ->
  (exists l f,
     index data (length_of data - 1) = Some l /\
     index data 0 = Some f /\
     trend data = Normal (value l - value f)%R) /\
  (List.length data = 1%nat -> trend data = Normal 0%R).
Proof.
  intros Hlen.
  destruct data as [|f rest]; [cbn in Hlen; lia|].
  destruct (exists_last (l := f :: rest) ltac:(discriminate))
    as (front & l & E).
  assert (Hl : index (f :: rest) (length_of (f :: rest) - 1) = Some l)
    by (rewrite E; apply index_last).
  split.
  - exists l, f. split; [exact Hl|]. split; [reflexivity|].
    unfold trend. rewrite Hl.
    cbn [index Z.ltb Z.compare Z.to_nat nth_error get_value Completion.bind].
    destruct (Z.gtb_spec (length_of (f :: rest)) 1) as [Hgt|Hle].
    + reflexivity.
    + assert (rest = []).
      { unfold length_of in Hle; cbn [List.length] in Hle.
        destruct rest; [reflexivity | cbn [List.length] in Hle; lia]. }
      subst rest. destruct front as [|x front].
      * cbn in E. injection E as ->. f_equal. lra.
      * destruct front; discriminate E.
  - intros H1. unfold trend, length_of. rewrite H1. reflexivity.
Qed.

Lemma trend_last_minus_first_witness :
  let data := [ mkWeatherData 1884 14.5 "UK" "Tmax";
                mkWeatherData 1885 15.0 "UK" "Tmax";
                mkWeatherData 1886 16.25 "UK" "Tmax" ] in
  (exists l f,
     index data (length_of data - 1) = Some l /\
     index data 0 = Some f /\
     trend data = Normal (value l - value f)%R) /\
  (List.length data = 1%nat -> trend data = Normal 0%R).
Proof.
  intros data. apply (trend_last_minus_first data). simpl. lia.
Defined.

(** C9.  On the empty series nothing is thrown: [latest] is undefined,
    [average] is 0 and [trend] is 0. *)
Theorem statistics_empty :
  statistics [] = Normal (mkStatistics None 0 0) /\
  latest [] = None /\ average [] = 0%R /\ trend [] = Normal 0%R.
Proof. repeat split. Qed.

Section Mean.

Open Scope R_scope.

(** The running sum of [reduce] stays between [n] times any lower bound
    and [n] times any upper bound of the values, shifted by the start. *)
Lemma reduce_sum_bounds (lo hi : R) (data : list WeatherData) :
  Forall (fun d => lo <= value d <= hi) data ->
  forall init,
    init + IZR (length_of data) * lo <= reduce (fun sum d => sum + value d) init data
    /\ reduce (fun sum d => sum + value d) init data <= init + IZR (length_of data) * hi.
Proof.
  unfold reduce, length_of.
  induction 1 as [|d data Hd _ IH]; intros init.
  - cbn. lra.
  - cbn [fold_left List.length]. rewrite Nat2Z.inj_succ, succ_IZR.
    cbv beta.
    specialize (IH (init + value d)). lra.
Qed.

Lemma fold_Rmin_le (ds : list WeatherData) :
  forall m,
    fold_left (fun m x => Rmin m (value x)) ds m <= m /\
    Forall (fun d => fold_left (fun m x => Rmin m (value x)) ds m
                     <= value d) ds.
Proof.
  induction ds as [|d ds IH]; intros m; cbn [fold_left].
  - split; [lra | constructor].
  - destruct (IH (Rmin m (value d))) as [H1 H2].
    pose proof (Rmin_l m (value d)). pose proof (Rmin_r m (value d)).
    split; [lra|]. constructor; [lra | exact H2].
Qed.

Lemma fold_Rmax_ge (ds : list WeatherData) :
  forall m,
    m <= fold_left (fun m x => Rmax m (value x)) ds m /\
    Forall (fun d => value d
                     <= fold_left (fun m x => Rmax m (value x)) ds m) ds.
Proof.
  induction ds as [|d ds IH]; intros m; cbn [fold_left].
  - split; [lra | constructor].
  - destruct (IH (Rmax m (value d))) as [H1 H2].
    pose proof (Rmax_l m (value d)). pose proof (Rmax_r m (value d)).
    split; [lra|]. constructor; [lra | exact H2].
Qed.

(** [min_value] and [max_value] bound every value of the series. *)
Lemma min_max_bound (data : list WeatherData) :
  Forall (fun d => min_value data <= value d <= max_value data) data.
Proof.
  destruct data as [|d ds]; [constructor|].
  cbn [min_value max_value].
  destruct (fold_Rmin_le ds (value d)) as [Hm Hms].
  destruct (fold_Rmax_ge ds (value d)) as [HM HMs].
  constructor; [lra|].
  rewrite Forall_forall in *. intros x Hx.
  split; [now apply Hms | now apply HMs].
Qed.

(** They are attained in the series. *)
Lemma fold_Rmin_attained (ds : list WeatherData) (d : WeatherData) :
  exists x, In x (d :: ds) /\
    fold_left (fun m x => Rmin m (value x)) ds (value d) = value x.
Proof.
  revert d; induction ds as [|e ds IH]; intros d; cbn [fold_left].
  - exists d. split; [now left | reflexivity].
  - unfold Rmin at 2. destruct (Rle_dec (value d) (value e)).
    + destruct (IH d) as (x & [<-|Hx] & E).
      * exists d. split; [now left | exact E].
      * exists x. split; [right; now right | exact E].
    + destruct (IH e) as (x & Hx & E).
      exists x. split; [now right | exact E].
Qed.

Lemma fold_Rmax_attained (ds : list WeatherData) (d : WeatherData) :
  exists x, In x (d :: ds) /\
    fold_left (fun m x => Rmax m (value x)) ds (value d) = value x.
Proof.
  revert d; induction ds as [|e ds IH]; intros d; cbn [fold_left].
  - exists d. split; [now left | reflexivity].
  - unfold Rmax at 2. destruct (Rle_dec (value d) (value e)).
    + destruct (IH e) as (x & Hx & E).
      exists x. split; [now right | exact E].
    + destruct (IH d) as (x & [<-|Hx] & E).
      * exists d. split; [now left | exact E].
      * exists x. split; [right; now right | exact E].
Qed.

Lemma average_between (lo hi : R) (data : list WeatherData) :
  (0 < List.length data)%nat ->
  Forall (fun d => lo <= value d <= hi) data ->
  lo <= average data <= hi.
Proof.
  intros Hlen Hb. unfold average.
  assert (Hn : 0 < IZR (length_of data))
    by (apply IZR_lt; unfold length_of; lia).
  destruct (Z.gtb_spec (length_of data) 0) as [_|Hle];
    [|apply lt_IZR in Hn; lia].
  destruct (reduce_sum_bounds lo hi data Hb 0) as [Hlo Hhi].
  set (sum := reduce (fun sum d => sum + value d) 0 data) in *.
  set (n := IZR (length_of data)) in *.
  assert (Hinv : 0 < / n) by now apply Rinv_0_lt_compat.
  assert (E : sum / n * n = sum) by (field; lra).
  split; nra.
Qed.

End Mean.

(** In exact arithmetic the mean of a series that is not empty lies
    between the smallest and the largest value of the series, both of which
    are values of points of the series. *)
Lemma exact_mean_between_min_max (data : list WeatherData) :
  (0 < List.length data)%nat ->
  (min_value data <= average data <= max_value data)%R /\
  (exists d, In d data /\ min_value data = value d) /\
  (exists d, In d data /\ max_value data = value d).
Proof.
  intros Hlen. split; [|split].
  - apply average_between; [exact Hlen | apply min_max_bound].
  - destruct data as [|d ds]; [cbn in Hlen; lia|].
    apply fold_Rmin_attained.
  - destruct data as [|d ds]; [cbn in Hlen; lia|].
    apply fold_Rmax_attained.
Qed.

(** * Further properties of the generator *)

Section MapMState.

Context {S A B : Type}.
Variable random : Rand.M S R.
Variable f : A -> Rand.M S B.

(** A callback that draws once per call leaves the source [n] draws on
    after [n] calls. *)
Lemma mapM_advance :
  (forall a s, snd (f a s) = snd (random s)) ->
  forall l s, snd (Rand.mapM f l s) = advance random (List.length l) s.
Proof.
  intros Hf l; induction l as [|a l IH]; intros s.
  - reflexivity.
  - rewrite mapM_cons; cbn [snd List.length advance]. now rewrite IH, Hf.
Qed.

(** [mapM_Forall2] when the callback is only known on the elements of the
    list. *)
Lemma mapM_Forall2_In (P : A -> B -> Prop) :
  forall l,
    (forall a, In a l -> forall s, P a (fst (f a s))) ->
    forall s, Forall2 P l (fst (Rand.mapM f l s)).
Proof.
  induction l as [|a l IH]; intros HP s.
  - constructor.
  - rewrite mapM_cons; cbn [fst]. constructor.
    + apply HP. now left.
    + apply IH. intros b Hb. apply HP. now right.
Qed.

End MapMState.

Lemma indices_In (n : nat) (i : Z) :
  In i (indices n) -> 0 <= i < Z.of_nat n.
Proof.
  unfold indices. rewrite in_map_iff. intros (k & <- & Hk).
  apply in_seq in Hk. lia.
Qed.

Lemma indices_succ (n : nat) :
  indices (Datatypes.S n) = 0 :: map Z.of_nat (seq 1 n).
Proof. reflexivity. Qed.

Section Recognized.

Context {RngState : Type}.
Variable Math_random : Rand.M RngState R.

(** The callback on a recognized parameter, for any region string. *)
Lemma point_recognized r q baseYear yearRange i s :
  point Math_random r (Table.name q) baseYear yearRange i s
  = (modelled_point r q (baseline r q) baseYear yearRange
       (i, fst (Math_random s)),
     snd (Math_random s)).
Proof.
  unfold point, baseline, switch, Rand.bind, Rand.ret, modelled_point,
    constant_half.
  destruct q; cbn [Table.name String.eqb Ascii.eqb Bool.eqb];
    destruct (Math_random s) as [u s']; reflexivity.
Qed.

Lemma point_fields r p baseYear yearRange i s :
  region (fst (point Math_random r p baseYear yearRange i s)) = r /\
  parameter (fst (point Math_random r p baseYear yearRange i s)) = p.
Proof.
  unfold point, Rand.bind, Rand.ret.
  destruct (switch _ _ _ _ _ _) as [c s']. split; reflexivity.
Qed.

End Recognized.

(** The baseline of any region string lies between the smallest and the
    greatest constant of the parameter's conditional. *)
Lemma baseline_range (r : string) (q : Table.Param) :
  (match q with
   | Table.Tmax => 13.2 | Table.Tmin => 4.1 | Table.Tmean => 8.7
   | Table.Rainfall => 1154 | Table.Sunshine => 1250
   end <= baseline r q <=
   match q with
   | Table.Tmax => 15.1 | Table.Tmin => 6.8 | Table.Tmean => 11.0
   | Table.Rainfall => 1680 | Table.Sunshine => 1550
   end)%R.
Proof.
  unfold baseline, switch, Rand.bind, Rand.ret, constant_half.
  destruct q; cbn [Table.name String.eqb Ascii.eqb Bool.eqb fst baseValue];
    repeat match goal with
           | |- context [if ?b then _ else _] => destruct b
           end; lra.
Qed.

(** X1.  For a recognized parameter and any region string, the series is
    given point by point by the constants of the parameter's [case]: point
    [i] is [max(0, baseline + sin(i * frequency) * amplitude
    + i / yearRange * slope + (u_i - 0.5) * noise)] where [u_i] is the
    [i]-th draw, and the random source is left exactly [yearRange] draws
    on. *)
Theorem generate_recognized
    (RngState : Type) (Math_random : Rand.M RngState R) (s : RngState)
    (r : string) (q : Table.Param) (baseYear currentYear : Z) :
  let n := Z.to_nat (currentYear - baseYear) in
  generate Math_random r (Table.name q) baseYear currentYear s
  = (map (modelled_point r q (baseline r q) baseYear
            (currentYear - baseYear))
       (combine (indices n) (draws Math_random n s)),
     advance Math_random n s).
Proof.
  intros n. unfold generate, Array_from. fold n.
  rewrite (surjective_pairing (Rand.mapM _ _ _)). f_equal.
  - rewrite (mapM_draws Math_random _
               (modelled_point r q (baseline r q) baseYear
                  (currentYear - baseYear))).
    + now rewrite indices_length.
    + intros i s0. apply point_recognized.
  - rewrite (mapM_advance Math_random).
    + now rewrite indices_length.
    + intros i s0. now rewrite point_recognized.
Qed.

(** X2.  When [currentYear] is not after [baseYear] the series is empty,
    whatever the region and the parameter, and no draw is made. *)
Theorem generate_empty_range
    (RngState : Type) (Math_random : Rand.M RngState R) (s : RngState)
    (r p : string) (baseYear currentYear : Z) :
  currentYear <= baseYear ->
  generate Math_random r p baseYear currentYear s = ([], s).
Proof.
  intros H. unfold generate, Array_from.
  replace (Z.to_nat (currentYear - baseYear)) with 0%nat by lia.
  reflexivity.
Qed.

Lemma generate_empty_range_witness :
  generate counting_source "Wales" "Rainfall" 1884 1880 3%nat = ([], 3%nat).
Proof.
  apply (generate_empty_range nat counting_source 3%nat "Wales" "Rainfall"
           1884 1880).
  lia.
Defined.

Lemma generate_bounds
    {RngState : Type} (Math_random : Rand.M RngState R) (s : RngState)
    (r : string) (q : Table.Param) (baseYear currentYear : Z) :
  (forall s0, 0 <= fst (Math_random s0) < 1)%R ->
  baseYear < currentYear ->
  Forall2
    (fun i d =>
       exists u : R,
         (0 <= u < 1)%R /\
         value d
         = (baseline r q
            + sin (IZR i * Table.frequency q) * Table.amplitude q
            + IZR i / IZR (currentYear - baseYear) * Table.trendSlope q
            + (u - 0.5) * Table.noiseAmplitude q)%R /\
         (0 < value_lower q <= value d)%R /\
         (value d <= value_upper q)%R)
    (indices (Z.to_nat (currentYear - baseYear)))
    (fst (generate Math_random r (Table.name q) baseYear currentYear s)).
Proof.
  intros Hu Hlt. unfold generate, Array_from.
  apply mapM_Forall2_In. intros i Hi s0.
  apply indices_In in Hi. rewrite point_recognized.
  cbn [fst modelled_point value].
  exists (fst (Math_random s0)). split; [apply Hu|].
  specialize (Hu s0). set (u := fst (Math_random s0)) in *.
  pose proof (baseline_range r q) as Hb.
  set (b := baseline r q) in *.
  pose proof (SIN_bound (IZR i * Table.frequency q)) as Hs.
  set (sn := sin (IZR i * Table.frequency q)) in *.
  assert (Hp : (0 <= IZR i / IZR (currentYear - baseYear) < 1)%R).
  { assert (Hn : (0 < IZR (currentYear - baseYear))%R)
      by (apply IZR_lt; lia).
    assert (Hi0 : (0 <= IZR i)%R) by (apply IZR_le; lia).
    assert (Hin : (IZR i < IZR (currentYear - baseYear))%R)
      by (apply IZR_lt; lia).
    split.
    - apply Rmult_le_pos; [exact Hi0|].
      left. now apply Rinv_0_lt_compat.
    - apply (Rmult_lt_reg_r (IZR (currentYear - baseYear))); [exact Hn|].
      unfold Rdiv. rewrite Rmult_assoc, Rinv_l by lra. lra. }
  set (pr := (IZR i / IZR (currentYear - baseYear))%R) in *.
  destruct q;
    cbn [Table.amplitude Table.trendSlope Table.noiseAmplitude
         value_lower value_upper] in *;
    (rewrite Rmax_right by lra); repeat split; lra.
Qed.

(** X3.  With a random source whose draws all lie in [0, 1), a recognized
    parameter, any region string and [baseYear < currentYear], every value
    of the series lies between [value_lower] and [value_upper] of the
    parameter; the lower bound is positive, so the value is the plain sum
    of the four components and the floor at 0 never applies. *)
Theorem generate_value_bounds
    (RngState : Type) (Math_random : Rand.M RngState R) (s : RngState)
    (r : string) (q : Table.Param) (baseYear currentYear : Z) :
  (forall s0, 0 <= fst (Math_random s0) < 1)%R ->
  baseYear < currentYear ->
  Forall2
    (fun i d =>
       exists u : R,
         (0 <= u < 1)%R /\
         value d
         = (baseline r q
            + sin (IZR i * Table.frequency q) * Table.amplitude q
            + IZR i / IZR (currentYear - baseYear) * Table.trendSlope q
            + (u - 0.5) * Table.noiseAmplitude q)%R /\
         (0 < value_lower q <= value d)%R /\
         (value d <= value_upper q)%R)
    (indices (Z.to_nat (currentYear - baseYear)))
    (fst (generate Math_random r (Table.name q) baseYear currentYear s)).
Proof. apply generate_bounds. Qed.

Lemma generate_value_bounds_witness :
  Forall2
    (fun i d =>
       exists u : R,
         (0 <= u < 1)%R /\
         value d
         = (baseline "Wales" Table.Rainfall
            + sin (IZR i * Table.frequency Table.Rainfall)
              * Table.amplitude Table.Rainfall
            + IZR i / IZR (1890 - 1884) * Table.trendSlope Table.Rainfall
            + (u - 0.5) * Table.noiseAmplitude Table.Rainfall)%R /\
         (0 < value_lower Table.Rainfall <= value d)%R /\
         (value d <= value_upper Table.Rainfall)%R)
    (indices (Z.to_nat (1890 - 1884)))
    (fst (generate constant_half "Wales" (Table.name Table.Rainfall)
            1884 1890 tt)).
Proof.
  apply (generate_value_bounds unit constant_half tt "Wales" Table.Rainfall
           1884 1890).
  - intros s0. cbn. lra.
  - lia.
Defined.

(** X4.  For a recognized parameter and [baseYear < currentYear], the
    first point is the year [baseYear] with the value
    [max(0, baseline + (u_0 - 0.5) * noise)]: at index 0 both the seasonal
    and the trend component vanish.  When the first draw is 0.5 the value
    is the baseline itself. *)
Theorem generate_first_point
    (RngState : Type) (Math_random : Rand.M RngState R) (s : RngState)
    (r : string) (q : Table.Param) (baseYear currentYear : Z) :
  baseYear < currentYear ->
  let u := fst (Math_random s) in
  index (fst (generate Math_random r (Table.name q) baseYear currentYear s))
    0
  = Some (mkWeatherData baseYear
            (Rmax 0 (baseline r q + (u - 0.5) * Table.noiseAmplitude q))
            r (Table.name q)) /\
  (u = 0.5%R ->
   index (fst (generate Math_random r (Table.name q) baseYear currentYear s))
     0
   = Some (mkWeatherData baseYear (baseline r q) r (Table.name q))).
Proof.
  intros Hlt u.
  assert (E : index (fst (generate Math_random r (Table.name q)
                            baseYear currentYear s)) 0
              = Some (mkWeatherData baseYear
                        (Rmax 0 (baseline r q
                                 + (u - 0.5) * Table.noiseAmplitude q))
                        r (Table.name q))).
  { unfold generate, Array_from.
    destruct (Z.to_nat (currentYear - baseYear)) as [|n] eqn:En; [lia|].
    rewrite indices_succ, mapM_cons. cbn [fst index Z.ltb Z.compare
      Z.to_nat nth_error].
    rewrite point_recognized. cbn [fst modelled_point]. fold u.
    do 2 f_equal.
    - lia.
    - f_equal. rewrite Rmult_0_l, sin_0. unfold Rdiv. lra. }
  split; [exact E|].
  intros Hu. rewrite E. do 2 f_equal. rewrite Hu.
  pose proof (baseline_range r q) as Hb.
  rewrite Rmax_right; destruct q; lra.
Qed.

Lemma generate_first_point_witness :
  let u := fst (constant_half tt) in
  index (fst (generate constant_half "Scotland" (Table.name Table.Sunshine)
                1884 2025 tt)) 0
  = Some (mkWeatherData 1884
            (Rmax 0 (baseline "Scotland" Table.Sunshine
                     + (u - 0.5) * Table.noiseAmplitude Table.Sunshine))
            "Scotland" (Table.name Table.Sunshine)) /\
  (u = 0.5%R ->
   index (fst (generate constant_half "Scotland" (Table.name Table.Sunshine)
                 1884 2025 tt)) 0
   = Some (mkWeatherData 1884 (baseline "Scotland" Table.Sunshine)
             "Scotland" (Table.name Table.Sunshine))).
Proof.
  apply (generate_first_point unit constant_half tt "Scotland"
           Table.Sunshine 1884 2025).
  lia.
Defined.

(** X5.  Every point of a generated series carries the region and the
    parameter that were selected, whether they are recognized or not. *)
Theorem generate_fields
    (RngState : Type) (Math_random : Rand.M RngState R) (s : RngState)
    (r p : string) (baseYear currentYear : Z) :
  Forall (fun d => region d = r /\ parameter d = p)
    (fst (generate Math_random r p baseYear currentYear s)).
Proof.
  eapply Forall2_Forall_r.
  - apply (generate_Forall2 Math_random
             (fun _ d => region d = r /\ parameter d = p)).
    intros i s0. apply point_fields.
  - intros i d Hd. exact Hd.
Qed.

(** * Further properties of the statistics *)

Lemma index_In {A : Type} (data : list A) (i : Z) (a : A) :
  index data i = Some a -> In a data.
Proof.
  unfold index. destruct (i <? 0); [discriminate|]. apply nth_error_In.
Qed.

Lemma index_last_nonempty (data : list WeatherData) :
  (0 < List.length data)%nat ->
  exists l, index data (length_of data - 1) = Some l.
Proof.
  intros Hlen. unfold index, length_of.
  destruct (Z.ltb_spec (Z.of_nat (List.length data) - 1) 0); [lia|].
  destruct (nth_error data (Z.to_nat (Z.of_nat (List.length data) - 1)))
    as [l|] eqn:E; [now exists l|].
  apply nth_error_None in E. lia.
Qed.

(** [trend] always completes; on more than one point it is the difference
    of the values of two points of the series. *)
Lemma trend_cases (data : list WeatherData) :
  (length_of data <= 1 /\ trend data = Normal 0%R) \/
  (1 < length_of data /\
   exists l f, index data (length_of data - 1) = Some l /\
               index data 0 = Some f /\
               trend data = Normal (value l - value f)%R).
Proof.
  unfold trend. destruct (Z.gtb_spec (length_of data) 1) as [Hgt|Hle].
  - right. split; [lia|].
    destruct (index_last_nonempty data) as [l Hl].
    { unfold length_of in Hgt. lia. }
    destruct data as [|f rest]; [discriminate Hl|].
    exists l, f. rewrite Hl. repeat split.
  - left. split; [lia | reflexivity].
Qed.

(** X6.  The three statistics complete without an exception on every
    series, of any length: the length guard of [trend] protects its two
    indexed reads. *)
Theorem statistics_never_throws (data : list WeatherData) :
  exists t : R,
    trend data = Normal t /\
    statistics data = Normal (mkStatistics (latest data) (average data) t).
Proof.
  unfold statistics.
  destruct (trend_cases data) as [[_ E]|(_ & l & f & _ & _ & E)];
    rewrite E; eauto.
Qed.

Lemma generate_latest
    {RngState : Type} (Math_random : Rand.M RngState R) (s : RngState)
    (r p : string) (baseYear currentYear : Z) :
  baseYear < currentYear ->
  exists d,
    latest (fst (generate Math_random r p baseYear currentYear s)) = Some d /\
    year d = currentYear - 1 /\ (0 <= value d)%R /\
    region d = r /\ parameter d = p.
Proof.
  intros Hlt.
  set (series := fst (generate Math_random r p baseYear currentYear s)).
  assert (Hlen : List.length series = Z.to_nat (currentYear - baseYear))
    by apply generate_length.
  destruct (index_last_nonempty series) as [d Hd]; [lia|].
  exists d. split; [exact Hd|].
  unfold index, length_of in Hd.
  destruct (Z.ltb_spec (Z.of_nat (List.length series) - 1) 0); [lia|].
  assert (Hk : (Z.to_nat (Z.of_nat (List.length series) - 1)
                < Z.to_nat (currentYear - baseYear))%nat) by lia.
  destruct (Forall2_nth_error _ _ _
              (generate_Forall2 Math_random
                 (fun k d => year d = baseYear + k /\ (0 <= value d)%R /\
                             region d = r /\ parameter d = p)
                 r p baseYear currentYear
                 (fun k s0 =>
                    conj (point_year Math_random r p baseYear _ k s0)
                      (conj (point_value_nonneg Math_random r p baseYear
                               _ k s0)
                         (point_fields Math_random r p baseYear _ k s0)))
                 s)
              _ _ (indices_nth_error _ _ Hk)) as (d' & Hd' & Hy & Hv & Hf).
  fold series in Hd'. rewrite Hd in Hd'. injection Hd' as <-.
  repeat split; try tauto. rewrite Hy. lia.
Qed.

(** X7.  With [baseYear < currentYear], [latest] of a generated series is
    its point of year [currentYear - 1] (the series stops one year short
    of [currentYear]), and its value is not negative. *)
Theorem latest_of_generate
    (RngState : Type) (Math_random : Rand.M RngState R) (s : RngState)
    (r p : string) (baseYear currentYear : Z) :
  baseYear < currentYear ->
  exists d,
    latest (fst (generate Math_random r p baseYear currentYear s)) = Some d /\
    year d = currentYear - 1 /\ (0 <= value d)%R /\
    region d = r /\ parameter d = p.
Proof. apply generate_latest. Qed.

Lemma latest_of_generate_witness :
  exists d,
    latest (fst (generate constant_half "UK" "Tmax" 1884 2025 tt)) = Some d /\
    year d = 2025 - 1 /\ (0 <= value d)%R /\
    region d = "UK" /\ parameter d = "Tmax".
Proof.
  apply (latest_of_generate unit constant_half tt "UK" "Tmax" 1884 2025).
  lia.
Defined.

Lemma generate_unrecognized_values
    {RngState : Type} (Math_random : Rand.M RngState R) (s : RngState)
    (r p : string) (baseYear currentYear : Z) :
  recognized_parameter p = false ->
  Forall (fun d => (100 <= value d <= 100)%R)
    (fst (generate Math_random r p baseYear currentYear s)).
Proof.
  intros Hp. rewrite (generate_unrecognized Math_random r p _ _ s Hp).
  cbn [fst]. apply Forall_forall. intros d Hd.
  apply in_map_iff in Hd. destruct Hd as (i & <- & _). cbn [value]. lra.
Qed.

(** X8.  For a parameter that is not recognized and
    [baseYear < currentYear], the statistics of the generated series are
    flat: [latest] is the point of year [currentYear - 1] and value 100,
    [average] is 100 and [trend] is 0, for every region and random
    source. *)
Theorem statistics_of_unrecognized_parameter
    (RngState : Type) (Math_random : Rand.M RngState R) (s : RngState)
    (r p : string) (baseYear currentYear : Z) :
  recognized_parameter p = false ->
  baseYear < currentYear ->
  statistics (fst (generate Math_random r p baseYear currentYear s))
  = Normal (mkStatistics
              (Some (mkWeatherData (currentYear - 1) 100 r p)) 100 0).
Proof.
  intros Hp Hlt.
  pose proof (generate_unrecognized_values Math_random s r p
                baseYear currentYear Hp) as Hall.
  pose proof (generate_length Math_random r p baseYear currentYear s)
    as Hlen.
  destruct (generate_latest Math_random s r p baseYear currentYear Hlt)
    as (d & Hd & Hy & _ & Hr & Hpar).
  set (series := fst (generate Math_random r p baseYear currentYear s)) in *.
  rewrite Forall_forall in Hall.
  assert (Hv : forall i x, index series i = Some x -> value x = 100%R).
  { intros i x Hx. apply index_In in Hx. specialize (Hall x Hx). lra. }
  assert (Ht : trend series = Normal 0%R).
  { destruct (trend_cases series) as [[_ E]|(_ & l & f & Hl & Hf & E)];
      [exact E|].
    rewrite E, (Hv _ _ Hl), (Hv _ _ Hf). f_equal. lra. }
  assert (Ha : average series = 100%R).
  { assert (100 <= average series <= 100)%R; [|lra].
    apply average_between; [lia|]. apply Forall_forall. exact Hall. }
  unfold statistics. rewrite Ht, Ha, Hd. cbn [Completion.bind].
  do 3 f_equal. pose proof (Hv _ _ Hd) as Hvd.
  destruct d as [y v r' p']; cbn [year value region parameter] in *.
  now subst.
Qed.

Lemma statistics_of_unrecognized_parameter_witness :
  statistics (fst (generate counting_source "Wales" "Humidity"
                     1884 2025 0%nat))
  = Normal (mkStatistics
              (Some (mkWeatherData (2025 - 1) 100 "Wales" "Humidity"))
              100 0).
Proof.
  apply (statistics_of_unrecognized_parameter nat counting_source 0%nat
           "Wales" "Humidity" 1884 2025).
  - reflexivity.
  - lia.
Defined.

(** X9.  The [average] of every generated series is not negative, for all
    regions, parameters, year bounds and random sources (on the empty
    series it is 0). *)
Theorem average_of_generate_nonneg
    (RngState : Type) (Math_random : Rand.M RngState R) (s : RngState)
    (r p : string) (baseYear currentYear : Z) :
  (0 <= average (fst (generate Math_random r p baseYear currentYear s)))%R.
Proof.
  set (series := fst (generate Math_random r p baseYear currentYear s)).
  assert (Hnn : Forall (fun d => (0 <= value d)%R) series).
  { eapply Forall2_Forall_r.
    - apply (generate_Forall2 Math_random (fun _ d => (0 <= value d)%R)).
      intros i s0. apply point_value_nonneg.
    - intros i d Hd. exact Hd. }
  destruct series as [|d ds] eqn:E.
  - unfold average. cbn. lra.
  - apply (average_between 0 (max_value (d :: ds))).
    + cbn [List.length]. lia.
    + pose proof (min_max_bound (d :: ds)) as Hb.
      rewrite Forall_forall in *. intros x Hx.
      specialize (Hnn x Hx). specialize (Hb x Hx). lra.
Qed.

(** * Properties of the presentation helpers *)

(** X10.  [getParameterInfo] on a recognized parameter returns the entry of
    [parameters] whose [value] is that parameter; on any other string it
    returns the record of empty strings. *)
Theorem getParameterInfo_lookup (param : string) :
  if recognized_parameter param
  then In (getParameterInfo param) parameters /\
       parameter_value (getParameterInfo param) = param
  else getParameterInfo param = empty_parameter_info.
Proof.
  unfold recognized_parameter, getParameterInfo.
  cbn [map parameters parameter_value existsb find].
  rewrite !(String.eqb_sym param).
  repeat match goal with
         | |- context [(?a =? param)%string] =>
             destruct (String.eqb_spec a param) as [<-|?]
         end;
    cbn [orb parameter_value]; try reflexivity;
    (split; [unfold parameters; cbn [In]; auto 10 | reflexivity]).
Qed.

Lemma getParameterInfo_unrecognized (param : string) :
  recognized_parameter param = false ->
  getParameterInfo param = empty_parameter_info.
Proof.
  intros H. destruct (unrecognized_parameter_inv _ H)
    as (H1 & H2 & H3 & H4 & H5).
  unfold getParameterInfo. cbn [parameters find parameter_value].
  rewrite !(String.eqb_sym _ param), H1, H2, H3, H4, H5. reflexivity.
Qed.

Lemma find_parameter_unrecognized (param : string) :
  recognized_parameter param = false ->
  find (fun p => (parameter_value p =? param)%string) parameters = None.
Proof.
  intros H. destruct (unrecognized_parameter_inv _ H)
    as (H1 & H2 & H3 & H4 & H5).
  cbn [parameters find parameter_value].
  rewrite !(String.eqb_sym _ param), H1, H2, H3, H4, H5. reflexivity.
Qed.

Lemma find_region_unrecognized (r : string) :
  recognized_region r = false ->
  find (fun x => (region_value x =? r)%string) regions = None.
Proof.
  intros H. destruct (unrecognized_region_inv _ H)
    as (H1 & H2 & H3 & H4 & H5).
  cbn [regions find region_value].
  rewrite !(String.eqb_sym _ r), H1, H2, H3, H4, H5. reflexivity.
Qed.

Lemma append_empty_r (s : string) : s ++ "" = s.
Proof. induction s as [|c s IH]; cbn; [reflexivity | now rewrite IH]. Qed.

(** X11.  [formatValue] on a parameter that is not recognized prints the
    rounded value alone: no decimals and no unit. *)
Theorem formatValue_unrecognized
    (toFixed : R -> Z -> string) (Math_round : R -> R)
    (Number_toString : R -> string) (v : R) (param : string) :
  recognized_parameter param = false ->
  formatValue toFixed Math_round Number_toString v param
  = Number_toString (Math_round v).
Proof.
  intros H. unfold formatValue.
  rewrite (getParameterInfo_unrecognized _ H).
  cbn [empty_parameter_info parameter_category parameter_unit String.eqb].
  destruct (param =? "Rainfall")%string; apply append_empty_r.
Qed.

Lemma formatValue_unrecognized_witness :
  formatValue sample_toFixed (fun x => x) sample_toString 12.5 "Humidity"
  = sample_toString 12.5%R.
Proof.
  apply (formatValue_unrecognized sample_toFixed (fun x => x)
           sample_toString 12.5%R "Humidity").
  reflexivity.
Defined.

(** X12.  [formatValue] on the recognized parameters: the three
    temperatures print one decimal followed by the degree unit, Rainfall
    and Sunshine print the rounded value followed by [mm] and [hrs]; the
    separate Rainfall branch prints what the last branch would. *)
Theorem formatValue_by_parameter
    (toFixed : R -> Z -> string) (Math_round : R -> R)
    (Number_toString : R -> string) (v : R) (q : Table.Param) :
  formatValue toFixed Math_round Number_toString v (Table.name q)
  = match q with
    | Table.Tmax | Table.Tmin | Table.Tmean => toFixed v 1 ++ "°C"
    | Table.Rainfall => Number_toString (Math_round v) ++ "mm"
    | Table.Sunshine => Number_toString (Math_round v) ++ "hrs"
    end.
Proof. destruct q; reflexivity. Qed.

(** X13.  On every recognized parameter the two tests for a temperature
    agree: the name contains a [T] (the test of [getTemperatureColor])
    exactly when the category of its entry is [temperature] (the test of
    [formatValue]).  They are not the same test: the unrecognized name
    [Total] contains a [T] and has the empty category. *)
Theorem temperature_tests_agree :
  Forall (fun p =>
            includes (parameter_value p) "T"
            = (parameter_category (getParameterInfo (parameter_value p))
               =? "temperature")%string)
    parameters /\
  includes "Total" "T" = true /\
  parameter_category (getParameterInfo "Total") = "".
Proof. repeat constructor. Qed.

(** X14.  With draws in [0, 1) and [baseYear < currentYear], the colour
    given to any value of a generated temperature series is limited by the
    constants of the generator: a Tmax value is never shown in the cold
    colour, a Tmin or Tmean value never in the warm colour; Rainfall and
    Sunshine values always get the primary colour. *)
Theorem color_of_generated
    (RngState : Type) (Math_random : Rand.M RngState R) (s : RngState)
    (r : string) (q : Table.Param) (baseYear currentYear : Z) :
  (forall s0, 0 <= fst (Math_random s0) < 1)%R ->
  baseYear < currentYear ->
  Forall
    (fun d =>
       let c := getTemperatureColor (value d) (Table.name q) in
       match q with
       | Table.Tmax =>
           c = "hsl(var(--weather-warm))" \/ c = "hsl(var(--weather-cool))"
       | Table.Tmin | Table.Tmean =>
           c = "hsl(var(--weather-cool))" \/ c = "hsl(var(--weather-cold))"
       | Table.Rainfall | Table.Sunshine => c = "hsl(var(--primary))"
       end)
    (fst (generate Math_random r (Table.name q) baseYear currentYear s)).
Proof.
  intros Hu Hlt.
  eapply Forall2_Forall_r;
    [exact (generate_bounds Math_random s r q baseYear currentYear Hu Hlt)|].
  intros i d (u & _ & _ & Hlo & Hhi). cbv zeta.
  unfold getTemperatureColor.
  destruct q; cbn [Table.name includes prefix Ascii.ascii_dec Ascii.ascii_rec
                   Ascii.ascii_rect value_lower value_upper] in *;
    try reflexivity;
    destruct (Rlt_dec 15 (value d)); destruct (Rlt_dec 8 (value d));
    auto; exfalso; lra.
Qed.

Lemma color_of_generated_witness :
  Forall
    (fun d =>
       let c := getTemperatureColor (value d) (Table.name Table.Tmin) in
       c = "hsl(var(--weather-cool))" \/ c = "hsl(var(--weather-cold))")
    (fst (generate constant_half "UK" (Table.name Table.Tmin)
            1884 2025 tt)).
Proof.
  apply (color_of_generated unit constant_half tt "UK" Table.Tmin
           1884 2025).
  - intros s0. cbn. lra.
  - lia.
Defined.

(** X15.  Under the guard of the statistics cards ([data.length > 0]) the
    optional reads of [latest] never fall back: [latest] is a point of the
    series, the value shown is its value (also when that value is 0) and
    the year shown is its year. *)
Theorem latest_under_render_guard (data : list WeatherData) :
  length_of data > 0 ->
  exists d,
    latest data = Some d /\ In d data /\
    latest_value_or_0 (latest data) = value d /\
    latest_year (latest data) = Some (year d).
Proof.
  intros Hlen.
  destruct (index_last_nonempty data) as [d Hd];
    [unfold length_of in Hlen; lia|].
  exists d. unfold latest. rewrite Hd. repeat split.
  - now apply index_In in Hd.
  - cbn [latest_value_or_0].
    destruct (Req_dec_T (value d) 0) as [E|_]; [now rewrite E | reflexivity].
Qed.

Lemma latest_under_render_guard_witness :
  exists d,
    latest [ mkWeatherData 1884 0 "UK" "Tmax";
             mkWeatherData 1885 0 "UK" "Tmax" ] = Some d /\
    In d [ mkWeatherData 1884 0 "UK" "Tmax";
           mkWeatherData 1885 0 "UK" "Tmax" ] /\
    latest_value_or_0
      (latest [ mkWeatherData 1884 0 "UK" "Tmax";
                mkWeatherData 1885 0 "UK" "Tmax" ]) = value d /\
    latest_year
      (latest [ mkWeatherData 1884 0 "UK" "Tmax";
                mkWeatherData 1885 0 "UK" "Tmax" ]) = Some (year d).
Proof.
  apply (latest_under_render_guard
           [ mkWeatherData 1884 0 "UK" "Tmax";
             mkWeatherData 1885 0 "UK" "Tmax" ]).
  reflexivity.
Defined.

(** X16.  The trend card never prints a minus sign: a falling trend is
    shown as its magnitude alone, which is the text of the rising trend of
    the same size without its leading plus. *)
Theorem trend_text_drops_sign
    (toFixed : R -> Z -> string) (Math_round : R -> R)
    (Number_toString : R -> string) (t : R) (selectedParameter : string) :
  (0 < t)%R ->
  trend_text toFixed Math_round Number_toString (- t) selectedParameter
  = formatValue toFixed Math_round Number_toString t selectedParameter /\
  trend_text toFixed Math_round Number_toString t selectedParameter
  = "+" ++ trend_text toFixed Math_round Number_toString (- t)
             selectedParameter.
Proof.
  intros Ht. unfold trend_text.
  destruct (Rge_dec (- t) 0) as [H|_]; [lra|].
  destruct (Rge_dec t 0) as [_|H]; [|lra].
  rewrite Rabs_Ropp, (Rabs_pos_eq t) by lra. split; reflexivity.
Qed.

Lemma trend_text_drops_sign_witness :
  trend_text sample_toFixed (fun x => x) sample_toString (- 2) "Tmax"
  = formatValue sample_toFixed (fun x => x) sample_toString 2 "Tmax" /\
  trend_text sample_toFixed (fun x => x) sample_toString 2 "Tmax"
  = "+" ++ trend_text sample_toFixed (fun x => x) sample_toString (- 2)
             "Tmax".
Proof.
  apply (trend_text_drops_sign sample_toFixed (fun x => x) sample_toString
           2%R "Tmax").
  lra.
Defined.

(** X17.  After a fetch in a year from 1884 on, for a recognized parameter
    and an entry of [regions], the toast reports [currentYear - 1884]
    years, the label of the parameter in lower case and the label of the
    region. *)
Theorem toast_of_fetch
    (Number_toString : R -> string) (toLowerCase : string -> string)
    (RngState : Type) (Math_random : Rand.M RngState R) (s : RngState)
    (ri : RegionInfo) (q : Table.Param) (currentYear : Z) :
  1884 <= currentYear ->
  In ri regions ->
  toast_description Number_toString toLowerCase
    (fst (fetchWeatherData Math_random (region_value ri) (Table.name q)
            currentYear s))
    (Table.name q) (region_value ri)
  = "Loaded " ++ Number_toString (IZR (currentYear - 1884))
    ++ " years of "
    ++ toLowerCase (parameter_label (getParameterInfo (Table.name q)))
    ++ " data for " ++ region_label ri.
Proof.
  intros Hy Hin. unfold toast_description, fetchWeatherData, length_of.
  rewrite generate_length, Z2Nat.id by lia.
  do 3 f_equal.
  assert (Hq : find (fun p => (parameter_value p =? Table.name q)%string)
                 parameters
               = Some (getParameterInfo (Table.name q)))
    by (destruct q; reflexivity).
  rewrite Hq. cbn [print_optional]. do 2 f_equal.
  unfold regions in Hin. cbn [In] in Hin.
  repeat (destruct Hin as [<-|Hin]; [reflexivity|]). contradiction.
Qed.

Lemma toast_of_fetch_witness :
  toast_description sample_toString (fun l => l)
    (fst (fetchWeatherData constant_half
            (region_value (mkRegionInfo "Wales" "Wales" "WA"))
            (Table.name Table.Rainfall) 2025 tt))
    (Table.name Table.Rainfall)
    (region_value (mkRegionInfo "Wales" "Wales" "WA"))
  = "Loaded " ++ sample_toString (IZR (2025 - 1884))
    ++ " years of "
    ++ (fun l => l)
         (parameter_label (getParameterInfo (Table.name Table.Rainfall)))
    ++ " data for " ++ region_label (mkRegionInfo "Wales" "Wales" "WA").
Proof.
  apply (toast_of_fetch sample_toString (fun l => l) unit constant_half tt
           (mkRegionInfo "Wales" "Wales" "WA") Table.Rainfall 2025).
  - lia.
  - unfold regions. simpl. tauto.
Defined.

(** X18.  When neither the parameter nor the region is recognized the
    lookups of the toast find nothing and the text reads
    [years of undefined data for undefined]; the count of years is still
    [currentYear - 1884]. *)
Theorem toast_of_unrecognized_selection
    (Number_toString : R -> string) (toLowerCase : string -> string)
    (RngState : Type) (Math_random : Rand.M RngState R) (s : RngState)
    (r p : string) (currentYear : Z) :
  1884 <= currentYear ->
  recognized_parameter p = false ->
  recognized_region r = false ->
  toast_description Number_toString toLowerCase
    (fst (fetchWeatherData Math_random r p currentYear s)) p r
  = "Loaded " ++ Number_toString (IZR (currentYear - 1884))
    ++ " years of undefined data for undefined".
Proof.
  intros Hy Hp Hr. unfold toast_description, fetchWeatherData, length_of.
  rewrite generate_length, Z2Nat.id by lia.
  rewrite (find_parameter_unrecognized _ Hp), (find_region_unrecognized _ Hr).
  reflexivity.
Qed.

Lemma toast_of_unrecognized_selection_witness :
  toast_description sample_toString (fun l => l)
    (fst (fetchWeatherData constant_half "Atlantis" "Humidity" 2025 tt))
    "Humidity" "Atlantis"
  = "Loaded " ++ sample_toString (IZR (2025 - 1884))
    ++ " years of undefined data for undefined".
Proof.
  apply (toast_of_unrecognized_selection sample_toString (fun l => l)
           unit constant_half tt "Atlantis" "Humidity" 2025);
    [lia | reflexivity | reflexivity].
Defined.

(** * The average in double precision *)

Section Binary64Facts.

Import Binary64.
Open Scope R_scope.

(** ** Powers of two *)

Lemma pow2_IZR (z : Z) : (0 <= z)%Z -> IZR (2 ^ z) = powerRZ 2 z.
Proof.
  intros Hz. destruct z as [|p|p]; [reflexivity | | lia].
  change (2 ^ Z.pos p)%Z with (Z.pow_pos 2 p). apply Zpower_pos_powerRZ.
Qed.

Lemma pow2_pos (z : Z) : 0 < powerRZ 2 z.
Proof. apply powerRZ_lt. lra. Qed.

Lemma pow2_add (a b : Z) : powerRZ 2 (a + b) = powerRZ 2 a * powerRZ 2 b.
Proof. apply powerRZ_add. lra. Qed.

Lemma pow2_ge_1 (z : Z) : (0 <= z)%Z -> 1 <= powerRZ 2 z.
Proof.
  intros Hz. rewrite <- pow2_IZR by exact Hz. apply IZR_le.
  pose proof (Z.pow_pos_nonneg 2 z ltac:(lia) Hz). lia.
Qed.

Lemma pow2_le (a b : Z) : (a <= b)%Z -> powerRZ 2 a <= powerRZ 2 b.
Proof.
  intros Hab. replace b with (a + (b - a))%Z by lia. rewrite pow2_add.
  pose proof (pow2_pos a). pose proof (pow2_ge_1 (b - a) ltac:(lia)). nra.
Qed.

Lemma pow2_lt (a b : Z) : (a < b)%Z -> powerRZ 2 a < powerRZ 2 b.
Proof.
  intros Hab. replace b with (a + 1 + (b - a - 1))%Z by lia.
  rewrite !pow2_add. change (powerRZ 2 1) with (2 * 1).
  pose proof (pow2_pos a). pose proof (pow2_ge_1 (b - a - 1) ltac:(lia)). nra.
Qed.

Lemma pow2_lt_inv (a b : Z) : powerRZ 2 a < powerRZ 2 b -> (a < b)%Z.
Proof.
  intros H. destruct (Z_lt_le_dec a b) as [Hlt|Hle]; [exact Hlt|].
  pose proof (pow2_le _ _ Hle). lra.
Qed.

Lemma pow2_le_inv (a b : Z) : powerRZ 2 a <= powerRZ 2 b -> (a <= b)%Z.
Proof.
  intros H. destruct (Z_le_gt_dec a b) as [Hle|Hgt]; [exact Hle|].
  pose proof (pow2_lt b a ltac:(lia)). lra.
Qed.


(** ** One rounding

    [ilog2_ratio] finds the binade of a positive ratio. *)
Lemma ilog2_ratio_spec (a b : Z) :
  (0 < a)%Z -> (0 < b)%Z ->
  powerRZ 2 (ilog2_ratio a b) <= IZR a / IZR b < powerRZ 2 (ilog2_ratio a b + 1).
Proof.
  intros Ha Hb. unfold ilog2_ratio.
  set (t := Z.max 0 (Z.log2 b + 1 - Z.log2 a)).
  assert (Ht : (0 <= t)%Z) by (unfold t; lia).
  set (y := (a * 2 ^ t / b)%Z).
  assert (H2t : (0 < 2 ^ t)%Z) by (apply Z.pow_pos_nonneg; lia).
  assert (Hy : (y * b <= a * 2 ^ t < (y + 1) * b)%Z).
  { unfold y. pose proof (Z.div_mod (a * 2 ^ t) b ltac:(lia)).
    pose proof (Z.mod_pos_bound (a * 2 ^ t) b Hb). nia. }
  assert (Hy1 : (1 <= y)%Z).
  { assert (b <= a * 2 ^ t)%Z.
    { pose proof (Z.log2_spec a Ha) as [Hla _].
      pose proof (Z.log2_spec b Hb) as [_ Hlb].
      pose proof (Z.log2_nonneg a). pose proof (Z.log2_nonneg b).
      assert (2 ^ Z.succ (Z.log2 b) <= 2 ^ (Z.log2 a + t))%Z
        by (apply Z.pow_le_mono_r; unfold t; lia).
      rewrite Z.pow_add_r in H1 by lia. nia. }
    unfold y. apply Z.div_le_lower_bound; lia. }
  pose proof (Z.log2_spec y ltac:(lia)) as [Hl1 Hl2].
  pose proof (Z.log2_nonneg y) as Hl0.
  set (l := Z.log2 y) in *.
  assert (Hlo : (2 ^ l * b <= a * 2 ^ t)%Z) by nia.
  assert (Hhi : (a * 2 ^ t < 2 ^ (l + 1) * b)%Z)
    by (change (Z.succ l) with (l + 1)%Z in Hl2; nia).
  apply IZR_le in Hlo. apply IZR_lt in Hhi.
  rewrite !mult_IZR, !pow2_IZR in Hlo, Hhi by lia.
  replace (l - t + 1)%Z with (l + 1 - t)%Z by lia.
  assert (E : forall z, powerRZ 2 (z - t) = powerRZ 2 z * / powerRZ 2 t)
    by (intros z; unfold Z.sub; now rewrite pow2_add, powerRZ_neg').
  rewrite !E.
  assert (HA : 0 < IZR a) by (apply IZR_lt; lia).
  assert (HB : 0 < IZR b) by (apply IZR_lt; lia).
  pose proof (pow2_pos t) as HT.
  assert (HI : 0 < / (IZR b * powerRZ 2 t))
    by (apply Rinv_0_lt_compat; nra).
  replace (IZR a / IZR b)
    with (IZR a * powerRZ 2 t * / (IZR b * powerRZ 2 t)) by (field; lra).
  replace (powerRZ 2 l * / powerRZ 2 t)
    with (powerRZ 2 l * IZR b * / (IZR b * powerRZ 2 t)) by (field; lra).
  replace (powerRZ 2 (l + 1) * / powerRZ 2 t)
    with (powerRZ 2 (l + 1) * IZR b * / (IZR b * powerRZ 2 t))
    by (field; lra).
  split.
  - apply Rmult_le_compat_r; lra.
  - apply Rmult_lt_compat_r; lra.
Qed.


(** [nearest_even] is within one half of the ratio. *)
Lemma nearest_even_spec (N D : Z) :
  (0 <= N)%Z -> (0 < D)%Z ->
  (0 <= nearest_even N D)%Z /\
  Rabs (IZR (nearest_even N D) - IZR N / IZR D) <= / 2.
Proof.
  intros HN HD. unfold nearest_even.
  pose proof (Z.div_mod N D ltac:(lia)) as Hdm.
  pose proof (Z.mod_pos_bound N D HD) as Hr.
  pose proof (Z.div_pos N D HN HD) as Hk.
  set (k := (N / D)%Z) in *. set (r := (N mod D)%Z) in *.
  assert (HDR : 0 < IZR D) by (apply IZR_lt; lia).
  assert (E : IZR N / IZR D = IZR k + IZR r / IZR D).
  { rewrite Hdm, plus_IZR, mult_IZR. field. lra. }
  assert (Hr0 : 0 <= IZR r / IZR D).
  { apply Rmult_le_pos; [apply IZR_le; lia|].
    left. now apply Rinv_0_lt_compat. }
  assert (Hhalf : forall c : Z, (2 * r <= D + c)%Z ->
                  IZR r / IZR D <= / 2 + IZR c / (2 * IZR D)).
  { intros c Hc. apply IZR_le in Hc.
    rewrite plus_IZR, mult_IZR in Hc.
    apply (Rmult_le_reg_r (2 * IZR D)); [lra|]. 
    replace (IZR r / IZR D * (2 * IZR D)) with (2 * IZR r) by (field; lra).
    replace ((/ 2 + IZR c / (2 * IZR D)) * (2 * IZR D))
      with (IZR D + IZR c) by (field; lra).
    exact Hc. }
  assert (Hhalf' : forall c : Z, (D + c <= 2 * r)%Z ->
                   / 2 + IZR c / (2 * IZR D) <= IZR r / IZR D).
  { intros c Hc. apply IZR_le in Hc.
    rewrite plus_IZR, mult_IZR in Hc.
    apply (Rmult_le_reg_r (2 * IZR D)); [lra|]. 
    replace (IZR r / IZR D * (2 * IZR D)) with (2 * IZR r) by (field; lra).
    replace ((/ 2 + IZR c / (2 * IZR D)) * (2 * IZR D))
      with (IZR D + IZR c) by (field; lra).
    exact Hc. }
  assert (Hz : / 2 + IZR 0 / (2 * IZR D) = / 2) by (field; lra).
  assert (Hup : / 2 <= IZR r / IZR D <= 3 / 2 ->
                Rabs (IZR (k + 1) - IZR N / IZR D) <= / 2).
  { rewrite E, plus_IZR. intros H. apply Rabs_le. lra. }
  assert (Hdown : IZR r / IZR D <= / 2 ->
                  Rabs (IZR k - IZR N / IZR D) <= / 2).
  { rewrite E. intros H. apply Rabs_le. lra. }
  assert (Hlt1 : IZR r / IZR D <= 3 / 2).
  { pose proof (Hhalf D ltac:(lia)) as H.
    replace (/ 2 + IZR D / (2 * IZR D)) with 1 in H by (field; lra). lra. }
  destruct (Z.ltb_spec (2 * r) D) as [H1|H1].
  - split; [lia|]. apply Hdown. rewrite <- Hz. apply Hhalf. lia.
  - destruct (Z.ltb_spec D (2 * r)) as [H2|H2].
    + split; [lia|]. apply Hup. split; [|exact Hlt1].
      rewrite <- Hz. apply Hhalf'. lia.
    + destruct (Z.even k).
      * split; [lia|]. apply Hdown. rewrite <- Hz. apply Hhalf. lia.
      * split; [lia|]. apply Hup. split; [|exact Hlt1].
        rewrite <- Hz. apply Hhalf'. lia.
Qed.

(** A result in the range of the normal doubles, short of [2 ^ 1023], is
    rounded to a finite double with a relative error of at most [u]. *)
Lemma round_error (a b s : Z) :
  (0 < a)%Z -> (0 < b)%Z ->
  let x := IZR a / IZR b * powerRZ 2 s in
  powerRZ 2 (-1022) <= x -> x < powerRZ 2 1023 ->
  exists d,
    round a b s = Finite d /\ (0 <= mantissa d)%Z /\
    Rabs (to_R d - x) <= u * x.
Proof.
  intros Ha Hb x Hlo Hhi.
  pose proof (ilog2_ratio_spec a b Ha Hb) as [HL1 HL2].
  set (L := ilog2_ratio a b) in *.
  assert (HA : 0 < IZR a) by (apply IZR_lt; lia).
  assert (HB : 0 < IZR b) by (apply IZR_lt; lia).
  pose proof (pow2_pos s) as HS.
  assert (HE1 : powerRZ 2 (L + s) <= x).
  { rewrite pow2_add. unfold x. apply Rmult_le_compat_r; lra. }
  assert (HE2 : x < powerRZ 2 (L + s + 1)).
  { replace (L + s + 1)%Z with (L + 1 + s)%Z by lia. rewrite pow2_add.
    unfold x. apply Rmult_lt_compat_r; lra. }
  assert (HElo : (-1022 <= L + s)%Z).
  { assert (powerRZ 2 (-1022) < powerRZ 2 (L + s + 1)) by lra.
    apply pow2_lt_inv in H. lia. }
  assert (HEhi : (L + s < 1023)%Z).
  { assert (powerRZ 2 (L + s) < powerRZ 2 1023) by lra.
    now apply pow2_lt_inv in H. }
  unfold round. destruct (Z.leb_spec a 0) as [?|_]; [lia|].
  fold L. cbv zeta.
  replace (Z.max (L + s - (prec - 1)) emin) with (L + s - 52)%Z
    by (unfold prec, emin; lia).
  set (q := (L + s - 52)%Z).
  replace ((emax <=? L + s) || ((L + s =? emax - 1) && _)) with false.
  2:{ symmetry. apply orb_false_iff. split.
      - apply Z.leb_gt. unfold emax. lia.
      - apply andb_false_iff. left. apply Z.eqb_neq. unfold emax. lia. }
  set (k := if (q <=? s)%Z then nearest_even (a * 2 ^ (s - q)) b
            else nearest_even a (b * 2 ^ (q - s))).
  pose proof (pow2_pos q) as HQ.
  assert (Hk : (0 <= k)%Z /\ Rabs (IZR k - x / powerRZ 2 q) <= / 2).
  { unfold k. destruct (Z.leb_spec q s) as [Hqs|Hqs].
    - assert (H2 : (0 < 2 ^ (s - q))%Z) by (apply Z.pow_pos_nonneg; lia).
      destruct (nearest_even_spec (a * 2 ^ (s - q)) b ltac:(nia) Hb)
        as [H0 H1].
      split; [exact H0|].
      replace (x / powerRZ 2 q) with (IZR (a * 2 ^ (s - q)) / IZR b);
        [exact H1|].
      rewrite mult_IZR, pow2_IZR by lia. unfold x, Z.sub.
      rewrite pow2_add, powerRZ_neg'. field. lra.
    - assert (H2 : (0 < 2 ^ (q - s))%Z) by (apply Z.pow_pos_nonneg; lia).
      destruct (nearest_even_spec a (b * 2 ^ (q - s)) ltac:(lia)
                  ltac:(nia)) as [H0 H1].
      split; [exact H0|].
      replace (x / powerRZ 2 q) with (IZR a / IZR (b * 2 ^ (q - s)));
        [exact H1|].
      rewrite mult_IZR, pow2_IZR by lia. unfold x.
      replace q with (s + (q - s))%Z at 2 by lia.
      rewrite pow2_add. pose proof (pow2_pos (q - s)). field. lra. }
  destruct Hk as [Hk0 Hk1].
  exists (mkDouble k q). split; [reflexivity|]. split; [exact Hk0|].
  unfold to_R; cbn [mantissa exponent].
  replace (IZR k * powerRZ 2 q - x)
    with ((IZR k - x / powerRZ 2 q) * powerRZ 2 q) by (field; lra).
  rewrite Rabs_mult, (Rabs_pos_eq (powerRZ 2 q)) by lra.
  assert (Hu : / 2 * powerRZ 2 q = u * powerRZ 2 (L + s)).
  { unfold u, prec, q. change (- (53))%Z with (-53)%Z.
    replace (L + s - 52)%Z with (-53 + 1 + (L + s))%Z by lia.
    rewrite !pow2_add. change (powerRZ 2 1) with (2 * 1).
    set (P := powerRZ 2 (-53)). set (P' := powerRZ 2 (L + s)). field. }
  assert (0 < u) by apply pow2_pos.
  apply Rle_trans with (/ 2 * powerRZ 2 q).
  - apply Rmult_le_compat_r; lra.
  - rewrite Hu. apply Rmult_le_compat_l; lra.
Qed.


(** ** The running sum

    Powers of [1 - u] and [1 + u] over at most [2 ^ 52] steps stay between
    one half and two. *)
Lemma u_bounds : 0 < u < / 2.
Proof.
  unfold u, prec. split; [apply pow2_pos|].
  replace (/ 2) with (powerRZ 2 (-1)).
  - apply pow2_lt. lia.
  - unfold powerRZ. change (Pos.to_nat 1) with 1%nat.
    cbn [pow]. now rewrite Rmult_1_r.
Qed.

Lemma one_minus_u_pow (n : nat) : 1 - INR n * u <= (1 - u) ^ n <= 1.
Proof.
  pose proof u_bounds as Hu.
  induction n as [|n IH].
  - cbn. lra.
  - rewrite S_INR. cbn [pow]. pose proof (pos_INR n). nra.
Qed.

Lemma one_plus_u_pow (n : nat) :
  INR n * u <= 1 -> 1 <= (1 + u) ^ n /\ (1 + u) ^ n * (1 - INR n * u) <= 1.
Proof.
  pose proof u_bounds as Hu.
  induction n as [|n IH]; intros Hn.
  - cbn. lra.
  - rewrite S_INR in *. pose proof (pos_INR n).
    destruct IH as [IH1 IH2]; [nra|]. cbn [pow]. split; [nra|].
    assert ((1 + u) * (1 - (INR n + 1) * u) <= 1 - INR n * u) by nra.
    assert (0 <= 1 - (INR n + 1) * u) by lra.
    replace ((1 + u) * (1 + u) ^ n * (1 - (INR n + 1) * u))
      with ((1 + u) ^ n * ((1 + u) * (1 - (INR n + 1) * u))) by ring.
    apply Rle_trans with ((1 + u) ^ n * (1 - INR n * u)); [|exact IH2].
    apply Rmult_le_compat_l; lra.
Qed.

Lemma to_R_pos_mantissa (d : double) : 0 < to_R d -> (0 < mantissa d)%Z.
Proof.
  unfold to_R. intros H. pose proof (pow2_pos (exponent d)).
  apply lt_IZR. nra.
Qed.

(** The integer that [add] hands to [round] is the exact sum. *)
Lemma add_exact (x y : double) :
  let e := Z.min (exponent x) (exponent y) in
  IZR (mantissa x * 2 ^ (exponent x - e) + mantissa y * 2 ^ (exponent y - e))
  / IZR 1 * powerRZ 2 e
  = to_R x + to_R y.
Proof.
  intros e. unfold to_R.
  rewrite plus_IZR, !mult_IZR, !pow2_IZR by lia.
  assert (E : forall z, powerRZ 2 z = powerRZ 2 (z - e) * powerRZ 2 e).
  { intros z. rewrite <- pow2_add. f_equal. lia. }
  rewrite (E (exponent x)), (E (exponent y)). field.
Qed.

(** One rounded operation on a result in the normal range. *)
Lemma round_bounds (a b s : Z) :
  (0 < a)%Z -> (0 < b)%Z ->
  let x := IZR a / IZR b * powerRZ 2 s in
  powerRZ 2 (-1022) <= x -> x < powerRZ 2 1023 ->
  exists d,
    round a b s = Finite d /\ (0 <= mantissa d)%Z /\
    x * (1 - u) <= to_R d <= x * (1 + u).
Proof.
  intros Ha Hb x Hlo Hhi.
  destruct (round_error a b s Ha Hb Hlo Hhi) as (d & E & Hm & Herr).
  exists d. split; [exact E|]. split; [exact Hm|].
  fold x in Herr. 
  assert (-(u * x) <= to_R d - x <= u * x).
  { split.
    - pose proof (Rle_abs (- (to_R d - x))). rewrite Rabs_Ropp in H. lra.
    - pose proof (Rle_abs (to_R d - x)). lra. }
  lra.
Qed.

(** After [k] more additions of values between [lo] and [hi], a running
    sum between [A] and [B] lies between [(A + k * lo) * (1 - u) ^ k] and
    [(B + k * hi) * (1 + u) ^ k], as long as the upper bound stays short of
    [2 ^ 1023]. *)
Lemma sum_bounds (lo hi : R) (ds : list WeatherData) :
  powerRZ 2 (-1022) <= lo ->
  Forall (fun d => exists v, value d = Finite v /\ lo <= to_R v <= hi) ds ->
  forall (s : double) (A B : R),
    (0 <= mantissa s)%Z -> 0 <= A <= to_R s -> to_R s <= B ->
    (B + INR (List.length ds) * hi) * (1 + u) ^ List.length ds
      < powerRZ 2 1023 ->
    exists s',
      fold_left (fun sum d => add sum (value d)) ds (Finite s) = Finite s' /\
      (0 <= mantissa s')%Z /\
      (A + INR (List.length ds) * lo) * (1 - u) ^ List.length ds <= to_R s' /\
      to_R s' <= (B + INR (List.length ds) * hi) * (1 + u) ^ List.length ds.
Proof.
  intros Hlo Hall. pose proof u_bounds as Hu.
  pose proof (pow2_pos (-1022)) as Hp.
  induction Hall as [|d ds (v & Ev & Hv) _ IH]; intros s A B Hm HA HB Hov.
  - exists s. cbn. repeat split; try lia; lra.
  - cbn [fold_left List.length] in *. rewrite S_INR in *.
    rewrite Ev. cbn [add].
    pose proof (add_exact s v) as Ex. cbv zeta in Ex.
    set (e := Z.min (exponent s) (exponent v)) in *.
    set (M := (mantissa s * 2 ^ (exponent s - e)
               + mantissa v * 2 ^ (exponent v - e))%Z) in *.
    set (k := List.length ds) in *.
    pose proof (pos_INR k) as Hk.
    assert (Hpk : 1 <= (1 + u) ^ k) by (apply pow_R1_Rle; lra).
    assert (Hpk' : 0 <= (1 - u) ^ k <= 1).
    { split; [apply pow_le; lra|]. apply (one_minus_u_pow k). }
    assert (Hhi0 : 0 < hi) by lra.
    assert (Hx1 : powerRZ 2 (-1022)
                  <= IZR M / IZR 1 * powerRZ 2 e) by (rewrite Ex; lra).
    assert (Hx2 : IZR M / IZR 1 * powerRZ 2 e < powerRZ 2 1023).
    { rewrite Ex. cbn [pow] in Hov.
      apply Rle_lt_trans with (2 := Hov).
      apply Rle_trans with ((B + (INR k + 1) * hi) * 1); [nra|].
      apply Rmult_le_compat_l; nra. }
    assert (HM : (0 < M)%Z).
    { apply lt_IZR. pose proof (pow2_pos e).
      assert (0 < IZR M / IZR 1 * powerRZ 2 e) by lra.
      replace (IZR M / IZR 1 * powerRZ 2 e) with (IZR M * powerRZ 2 e) in H0
        by (field; lra). nra. }
    destruct (round_bounds M 1 e HM ltac:(lia) Hx1 Hx2)
      as (s1 & E1 & Hm1 & Hb1 & Hb2).
    rewrite Ex in Hb1, Hb2. rewrite E1.
    assert (Hkh : 0 <= INR k * hi) by nra.
    assert (Hkl : 0 <= INR k * lo) by nra.
    destruct (IH s1 ((A + lo) * (1 - u)) ((B + hi) * (1 + u)) Hm1)
      as (s' & E' & Hm' & Hl' & Hh').
    + split; [nra | nra].
    + nra.
    + cbn [pow] in Hov. apply Rle_lt_trans with (2 := Hov).
      replace ((B + (INR k + 1) * hi) * ((1 + u) * (1 + u) ^ k))
        with (((B + hi) * (1 + u) + INR k * hi * (1 + u)) * (1 + u) ^ k)
        by ring.
      apply Rmult_le_compat_r; [lra|]. nra.
    + exists s'. split; [exact E'|]. split; [exact Hm'|]. cbn [pow]. split.
      * apply Rle_trans with (2 := Hl').
        replace ((A + (INR k + 1) * lo) * ((1 - u) * (1 - u) ^ k))
          with (((A + lo) * (1 - u) + INR k * lo * (1 - u)) * (1 - u) ^ k)
          by ring.
        apply Rmult_le_compat_r; [lra|]. nra.
      * apply Rle_trans with (1 := Hh').
        replace ((B + (INR k + 1) * hi) * ((1 + u) * (1 + u) ^ k))
          with (((B + hi) * (1 + u) + INR k * hi * (1 + u)) * (1 + u) ^ k)
          by ring.
        apply Rmult_le_compat_r; [lra|]. nra.
Qed.


Lemma pow2_succ (z : Z) : powerRZ 2 (z + 1) = 2 * powerRZ 2 z.
Proof.
  rewrite pow2_add. unfold powerRZ at 2. change (Pos.to_nat 1) with 1%nat.
  cbn [pow]. ring.
Qed.

(** ** The rounded average *)


(** ** The model against the built-in floats *)

(** On every sample series the model and the built-in binary64 floats
    compute the same average. *)
Lemma model_agrees_with_kernel :
  forallb Kernel64.agree Kernel64.samples = true.
Proof. vm_compute. reflexivity. Qed.



End Binary64Facts.
